(** * calendario-social: scheduling, filtering and calendar aggregation

    A shallow embedding of the pure core of [src/app/page.tsx]: the local
    date helpers, the status severity, the two filters (board and
    calendar), the per-day aggregation, the month grid and the two item
    updates, followed by the properties proved about them.

    Modelling conventions.
    - A JavaScript string is a [string] read as the list of its UTF-16
      code units, one [ascii] per unit: the development covers the texts
      whose code units are all below 256, that is the characters U+0000
      to U+00FF (ASCII and Latin-1).  On these [is_space] and
      [toLowerCase] are the runtime's: U+00A0 is white space, the
      capital letters U+00C0 to U+00DE have a lower case.  A literal
      with a character outside ASCII is not used anywhere.
    - A JavaScript number that the code computes with is an integer; a
      number that may be [NaN] is a [number := option Z], [None] for [NaN].
    - A [Date] object is its time value (milliseconds since the epoch, UTC)
      or [InvalidDate].  The host's time zone is a [Zone]: the offset it
      starts with and its transitions, each the instant from which
      another offset is in force.  [LocalTime] and [UTC] read it as
      ECMAScript says: a local time that two instants show, or none, is
      read with the offset before the transition.  A host without
      transitions is a fixed offset [tza : Z], which is used as a zone
      ([fixedZone]).  A statement that asks for [validOffset tza] is
      about the hosts with a fixed offset; a statement that takes the
      zone without it, under whatever name, is about every host.
    - The day/time arithmetic ([Day], [DayFromYear], [MakeDay], [TimeClip],
      ...) follows the ECMAScript definitions of the [Date] object, which
      the source gets from the runtime. *)

From Stdlib Require Import ZArith Lia Ascii String List Bool.
From stdpp Require Import base option list gmap strings fin_maps.

Local Open Scope Z_scope.
Local Open Scope string_scope.

(** ** JavaScript strings *)

Module JsString.

Definition truthy (s : string) : bool :=
  match s with EmptyString => false | _ => true end.

(** [s.split(sep)] for a one-character separator: never the empty list. *)
Fixpoint split (sep : ascii) (s : string) : list string :=
  match s with
  | EmptyString => [EmptyString]
  | String c r =>
      if Ascii.eqb c sep then EmptyString :: split sep r
      else match split sep r with
           | h :: t => String c h :: t
           | [] => [String c EmptyString]
           end
  end.

(** [xs.join(sep)]. *)
Fixpoint join (sep : string) (xs : list string) : string :=
  match xs with
  | [] => EmptyString
  | [x] => x
  | x :: rest => x ++ sep ++ join sep rest
  end.

Definition is_digit (c : ascii) : bool :=
  let n := N_of_ascii c in (48 <=? n)%N && (n <=? 57)%N.

Definition digit_val (c : ascii) : Z := Z.of_N (N_of_ascii c) - 48.

(** White space and line terminators among the code units below 256:
    U+0009 to U+000D, the space and the no-break space U+00A0. *)
Definition is_space (c : ascii) : bool :=
  let n := N_of_ascii c in
  ((9 <=? n)%N && (n <=? 13)%N) || (n =? 32)%N || (n =? 160)%N.

Fixpoint trimStart (s : string) : string :=
  match s with
  | String c r => if is_space c then trimStart r else s
  | EmptyString => EmptyString
  end.

(** Drops the trailing white space: a character is kept when it is not
    a space or when something is kept after it. *)
Fixpoint trimEnd (s : string) : string :=
  match s with
  | EmptyString => EmptyString
  | String c r =>
      match trimEnd r with
      | EmptyString => if is_space c then EmptyString else String c EmptyString
      | r' => String c r'
      end
  end.

Definition trim (s : string) : string := trimEnd (trimStart s).

(** The lower case of a code unit below 256: [A] to [Z] and the capital
    letters U+00C0 to U+00DE (U+00D7 is the multiplication sign) are 32
    below their lower case. *)
Definition lower_char (c : ascii) : ascii :=
  let n := N_of_ascii c in
  if ((65 <=? n)%N && (n <=? 90)%N)
     || ((192 <=? n)%N && (n <=? 222)%N && negb (n =? 215)%N)
  then ascii_of_N (n + 32) else c.

(** [s.toLowerCase()]. *)
Fixpoint toLowerCase (s : string) : string :=
  match s with
  | EmptyString => EmptyString
  | String c r => String (lower_char c) (toLowerCase r)
  end.

(** [hay.includes(needle)]. *)
Fixpoint includes (hay needle : string) : bool :=
  String.prefix needle hay
  || match hay with
     | EmptyString => false
     | String _ r => includes r needle
     end.

(** The digits at the front of [s], accumulated base 10:
    [(value, how many were read)]. *)
Fixpoint read_digits (s : string) (acc : Z) (n : nat) : Z * nat :=
  match s with
  | String c r =>
      if is_digit c then read_digits r (10 * acc + digit_val c) (S n)
      else (acc, n)
  | EmptyString => (acc, n)
  end.

Definition number := option Z.

(** [parseInt(s, 10)]: leading white space, an optional sign, then the
    longest run of digits; [NaN] when there is none. *)
Definition parseInt (s : string) : number :=
  let t := trimStart s in
  let '(neg, body) :=
    match t with
    | String "-" r => (true, r)
    | String "+" r => (false, r)
    | _ => (false, t)
    end in
  match read_digits body 0 0 with
  | (_, O) => None
  | (v, _) => Some (if neg then - v else v)
  end.

Definition digit_char (d : Z) : ascii := ascii_of_N (48 + Z.to_N d)%N.

(** The decimal digits of [n >= 0] put in front of [acc], last digit
    first; [fuel] bounds the number of digits. *)
Fixpoint digits_of (fuel : nat) (n : Z) (acc : string) : string :=
  match fuel with
  | O => acc
  | S fuel' =>
      let acc' := String (digit_char (n mod 10)%Z) acc in
      if (n <? 10)%Z then acc' else digits_of fuel' (n / 10)%Z acc'
  end.

(** [String(n)] for an integer of at most 21 digits, which JavaScript
    writes in full. *)
Definition ofZ (z : Z) : string :=
  if (z <? 0)%Z then String "-" (digits_of 21 (- z)%Z EmptyString)
  else digits_of 21 z EmptyString.

Definition ofNumber (x : number) : string :=
  match x with Some z => ofZ z | None => "NaN" end.

Fixpoint repeat_fill (fuel : nat) (fill : string) (n : nat) : string :=
  match fuel with
  | O => EmptyString
  | S fuel' =>
      if (n <=? String.length fill)%nat then substring 0 n fill
      else fill ++ repeat_fill fuel' fill (n - String.length fill)
  end.

(** [s.padStart(target, fill)]. *)
Definition padStart (s : string) (target : nat) (fill : string) : string :=
  let len := String.length s in
  if (target <=? len)%nat then s
  else match fill with
       | EmptyString => s
       | _ => repeat_fill (target - len) fill (target - len) ++ s
       end.

(** [x || dflt] on a number: [NaN] and [0] are falsy. *)
Definition or_default (x : number) (dflt : Z) : Z :=
  match x with
  | Some 0 | None => dflt
  | Some v => v
  end.

End JsString.

(** ** The runtime's [Date] *)

Module JsDate.

Import JsString.
Local Open Scope Z_scope.

Definition msPerDay : Z := 86400000.
Definition msPerHour : Z := 3600000.
Definition msPerMinute : Z := 60000.
Definition msPerSecond : Z := 1000.
Definition maxTime : Z := 8640000000000000.

Definition Day (t : Z) : Z := t / msPerDay.
Definition TimeWithinDay (t : Z) : Z := t mod msPerDay.

Definition isLeap (y : Z) : bool :=
  if negb (y mod 4 =? 0) then false
  else if negb (y mod 100 =? 0) then true
  else if negb (y mod 400 =? 0) then false
  else true.

Definition leapZ (y : Z) : Z := if isLeap y then 1 else 0.

Definition DaysInYear (y : Z) : Z := if isLeap y then 366 else 365.

Definition DayFromYear (y : Z) : Z :=
  365 * (y - 1970) + (y - 1969) / 4 - (y - 1901) / 100 + (y - 1601) / 400.

(** The year of a day number: the largest [y] with
    [DayFromYear y <= day] (lemma [YearFromDay_spec]), computed on the
    400/100/4/1-year cycles counted from 1601-01-01. *)
Definition YearFromDay (day : Z) : Z :=
  let n := day + 134774 in
  let q400 := n / 146097 in
  let r400 := n mod 146097 in
  let c := Z.min (r400 / 36524) 3 in
  let r100 := r400 - c * 36524 in
  let q4 := r100 / 1461 in
  let r4 := r100 mod 1461 in
  let a := Z.min (r4 / 365) 3 in
  1601 + 400 * q400 + 100 * c + 4 * q4 + a.

Definition YearFromTime (t : Z) : Z := YearFromDay (Day t).
Definition InLeapYear (t : Z) : Z := leapZ (YearFromTime t).
Definition DayWithinYear (t : Z) : Z := Day t - DayFromYear (YearFromTime t).

(** Day within the year on which month [m] (0-based) starts. *)
Definition monthStart (leap : Z) (m : Z) : Z :=
  match m with
  | 0 => 0
  | 1 => 31
  | 2 => 59 + leap
  | 3 => 90 + leap
  | 4 => 120 + leap
  | 5 => 151 + leap
  | 6 => 181 + leap
  | 7 => 212 + leap
  | 8 => 243 + leap
  | 9 => 273 + leap
  | 10 => 304 + leap
  | _ => 334 + leap
  end.

Definition monthOfYearDay (leap : Z) (d : Z) : Z :=
  if d <? 31 then 0
  else if d <? 59 + leap then 1
  else if d <? 90 + leap then 2
  else if d <? 120 + leap then 3
  else if d <? 151 + leap then 4
  else if d <? 181 + leap then 5
  else if d <? 212 + leap then 6
  else if d <? 243 + leap then 7
  else if d <? 273 + leap then 8
  else if d <? 304 + leap then 9
  else if d <? 334 + leap then 10
  else 11.

(** Length of month [m] (0-based) of year [y]. *)
Definition DaysInMonth (y m : Z) : Z :=
  match m with
  | 1 => 28 + leapZ y
  | 3 | 5 | 8 | 10 => 30
  | _ => 31
  end.

Definition MonthFromTime (t : Z) : Z :=
  monthOfYearDay (InLeapYear t) (DayWithinYear t).

Definition DateFromTime (t : Z) : Z :=
  DayWithinYear t - monthStart (InLeapYear t) (MonthFromTime t) + 1.

Definition WeekDay (t : Z) : Z := (Day t + 4) mod 7.

Definition MakeTime (h mi s ms : Z) : Z :=
  h * msPerHour + mi * msPerMinute + s * msPerSecond + ms.

Definition MakeDay (year month date : Z) : Z :=
  let ym := year + month / 12 in
  let mn := month mod 12 in
  DayFromYear ym + monthStart (leapZ ym) mn + date - 1.

Definition MakeDate (day time : Z) : Z := day * msPerDay + time.

(** The years and months [MakeDay] computes with: beyond a million
    years or ten million months the engine gives [NaN], whatever the
    other fields are.  The year and month of a time value are within. *)
Definition fieldsInRange (year month : Z) : bool :=
  (Z.abs year <=? 1000000) && (Z.abs month <=? 10000000).

Inductive Date : Type :=
| InvalidDate
| TimeValue (tv : Z).

Definition TimeClip (t : Z) : Date :=
  if Z.abs t <=? maxTime then TimeValue t else InvalidDate.

Definition isValid (d : Date) : bool :=
  match d with TimeValue _ => true | InvalidDate => false end.

(** The host's time zone: the offset of local time from UTC (in
    milliseconds) in force before the first transition, and the
    transitions in increasing order, each the instant from which the
    given offset is in force. *)
Record Zone : Type := {
  baseOffset : Z;
  transitions : list (Z * Z);
}.

(** A host whose offset never changes. *)
Definition fixedZone (tza : Z) : Zone :=
  {| baseOffset := tza; transitions := [] |}.

Coercion fixedZone : Z >-> Zone.

(** The offset in force at the instant [t]. *)
Fixpoint offsetAt (before : Z) (trs : list (Z * Z)) (t : Z) : Z :=
  match trs with
  | [] => before
  | (instant, after) :: rest =>
      if t <? instant then before else offsetAt after rest t
  end.

(** The offset with which the local time [lt] is read: the offset of
    the earliest instant that shows [lt]; when a transition skipped [lt]
    and no instant shows it, the offset before that transition. *)
Fixpoint offsetOfLocal (before : Z) (trs : list (Z * Z)) (lt : Z) : Z :=
  match trs with
  | [] => before
  | (instant, after) :: rest =>
      if lt <? instant + Z.max before after then before
      else offsetOfLocal after rest lt
  end.

Section LocalZone.

Variable zone : Zone.

Definition LocalTime (t : Z) : Z :=
  t + offsetAt (baseOffset zone) (transitions zone) t.
Definition UTC (t : Z) : Z :=
  t - offsetOfLocal (baseOffset zone) (transitions zone) t.

Definition localField (f : Z -> Z) (d : Date) : number :=
  match d with
  | TimeValue tv => Some (f (LocalTime tv))
  | InvalidDate => None
  end.

Definition getFullYear : Date -> number := localField YearFromTime.
Definition getMonth : Date -> number := localField MonthFromTime.
Definition getDate : Date -> number := localField DateFromTime.
Definition getDay : Date -> number := localField WeekDay.

(** [new Date(year, month, date, hours, minutes, seconds, ms)]: any
    [NaN] argument gives an invalid date, a year in [0..99] is taken as
    [1900 + year], and so does a year or month out of [MakeDay]'s
    range. *)
Definition ofFields (year month date hours minutes seconds ms : number) : Date :=
  match year, month, date, hours, minutes, seconds, ms with
  | Some y, Some m, Some dt, Some h, Some mi, Some s, Some milli =>
      let yr := if (0 <=? y) && (y <=? 99) then 1900 + y else y in
      if fieldsInRange yr m
      then TimeClip (UTC (MakeDate (MakeDay yr m dt) (MakeTime h mi s milli)))
      else InvalidDate
  | _, _, _, _, _, _, _ => InvalidDate
  end.

(** [new Date(year, month, date)]. *)
Definition ofYMD (year month date : number) : Date :=
  ofFields year month date (Some 0) (Some 0) (Some 0) (Some 0).

(** [new Date(d)] for a [Date] [d]: a copy of its time value. *)
Definition copy (d : Date) : Date :=
  match d with
  | TimeValue tv => TimeClip tv
  | InvalidDate => InvalidDate
  end.

(** [d.setDate(dt)]: the date after the call. *)
Definition setDate (d : Date) (dt : number) : Date :=
  match d, dt with
  | TimeValue tv, Some n =>
      let t := LocalTime tv in
      TimeClip (UTC (MakeDate (MakeDay (YearFromTime t) (MonthFromTime t) n)
                              (TimeWithinDay t)))
  | _, _ => InvalidDate
  end.

(** [d.setMonth(m)]. *)
Definition setMonth (d : Date) (m : number) : Date :=
  match d, m with
  | TimeValue tv, Some n =>
      let t := LocalTime tv in
      if fieldsInRange (YearFromTime t) n
      then TimeClip (UTC (MakeDate (MakeDay (YearFromTime t) n (DateFromTime t))
                                   (TimeWithinDay t)))
      else InvalidDate
  | _, _ => InvalidDate
  end.

(** [d.setHours(h, mi, s, ms)]. *)
Definition setHours (d : Date) (h mi s ms : Z) : Date :=
  match d with
  | TimeValue tv =>
      let t := LocalTime tv in
      TimeClip (UTC (MakeDate (Day t) (MakeTime h mi s ms)))
  | InvalidDate => InvalidDate
  end.

End LocalZone.

End JsDate.

(** ** The application data *)

Import JsString JsDate.

Inductive Platform : Type := Instagram | Facebook | X | LinkedIn | TikTok.

Definition PLATFORMS : list Platform := [Instagram; Facebook; X; LinkedIn; TikTok].

Definition STATUSES : list string :=
  ["Bozza"; "In revisione"; "Approvato"; "Da correggere"].

#[global] Instance Platform_eq_dec : EqDecision Platform.
Proof. solve_decision. Defined.

Definition Platform_code (p : Platform) : nat :=
  match p with
  | Instagram => 0 | Facebook => 1 | X => 2 | LinkedIn => 3 | TikTok => 4
  end%nat.

Definition Platform_decode (n : nat) : option Platform :=
  match n with
  | 0 => Some Instagram | 1 => Some Facebook | 2 => Some X
  | 3 => Some LinkedIn | 4 => Some TikTok | _ => None
  end%nat.

#[global] Instance Platform_countable : Countable Platform.
Proof.
  apply (inj_countable Platform_code Platform_decode).
  intros []; reflexivity.
Defined.

Record PlatformEntry : Type := { enabled : bool; caption : string }.

(** [PostItem]: an optional property is an [option]; [status] is the
    string the runtime holds, whatever the declared union says;
    [platforms] has an entry for each of the five platforms, as its type
    declares. *)
Module PostItem.
Record t : Type := {
  id : string;
  createdAt : Z;
  imageUrl : option string;
  imageName : option string;
  platforms : Platform -> PlatformEntry;
  scheduledAt : option string;
  owner : option string;
  notes : option string;
  status : string;
  tags : list string;
}.
End PostItem.

(** [Partial<PostItem>]: [None] when the patch does not have the key. *)
Module Patch.
Record t : Type := {
  id : option string;
  createdAt : option Z;
  imageUrl : option (option string);
  imageName : option (option string);
  platforms : option (Platform -> PlatformEntry);
  scheduledAt : option (option string);
  owner : option (option string);
  notes : option (option string);
  status : option string;
  tags : option (list string);
}.
End Patch.

(** The value of the platform select: ["Tutte"] or one platform. *)
Inductive PlatformFilter : Type :=
| Tutte
| Solo (p : Platform).

(** The filter state of the page component. *)
Record Filters : Type := {
  statusFilter : string;
  platformFilter : PlatformFilter;
  onlyScheduled : bool;
  selectedDate : option string;
  query : string;
}.

(** A day bucket of the calendar. *)
Record Bucket : Type := {
  items : list PostItem.t;
  platformSeverity : gmap Platform Z;
}.

(** Truthiness of an optional string: absent and empty are falsy. *)
Definition present (o : option string) : bool :=
  match o with Some s => truthy s | None => false end.

(** [o || ""]. *)
Definition orEmpty (o : option string) : string :=
  match o with Some s => s | None => EmptyString end.

(** [arr[i]] of an array of numbers read as a number. *)
Definition numAt (arr : list number) (i : nat) : number :=
  match arr !! i with Some x => x | None => None end.

(** [{ ...it, ...patch }] *)
Definition spread (it : PostItem.t) (patch : Patch.t) : PostItem.t :=
  {| PostItem.id := default (PostItem.id it) (Patch.id patch);
     PostItem.createdAt := default (PostItem.createdAt it) (Patch.createdAt patch);
     PostItem.imageUrl := default (PostItem.imageUrl it) (Patch.imageUrl patch);
     PostItem.imageName := default (PostItem.imageName it) (Patch.imageName patch);
     PostItem.platforms := default (PostItem.platforms it) (Patch.platforms patch);
     PostItem.scheduledAt := default (PostItem.scheduledAt it) (Patch.scheduledAt patch);
     PostItem.owner := default (PostItem.owner it) (Patch.owner patch);
     PostItem.notes := default (PostItem.notes it) (Patch.notes patch);
     PostItem.status := default (PostItem.status it) (Patch.status patch);
     PostItem.tags := default (PostItem.tags it) (Patch.tags patch) |}.

(** [statusToSeverity]: 0 none/bozza, 1 approved, 2 review, 3 fix. *)
Definition statusToSeverity (s : string) : Z :=
  if String.eqb s "Approvato" then 1
  else if String.eqb s "In revisione" then 2
  else if String.eqb s "Da correggere" then 3
  else 0.

(** [chunk(arr, size)]: the slices [arr.slice(i, i+size)] for
    [i = 0, size, 2*size, ... < arr.length].  The source's loop does not
    end for [size = 0]; the fuel [length arr] is enough for [size >= 1]. *)
Fixpoint chunk_from {A : Type} (fuel : nat) (arr : list A) (size : nat) : list (list A) :=
  match fuel with
  | O => []
  | S fuel' =>
      match arr with
      | [] => []
      | _ => take size arr :: chunk_from fuel' (drop size arr) size
      end
  end.

Definition chunk {A : Type} (arr : list A) (size : nat) : list (list A) :=
  chunk_from (length arr) arr size.

Section Calendar.

(** The host's time zone. *)
Variable zone : Zone.

(** *** Local date helpers *)

Definition parseLocalDateTime (str : string) : Date :=
  if negb (truthy str) then InvalidDate
  else
    let parts := split "T" str in
    let ymd := nth 0 parts EmptyString in
    let hm := match parts with _ :: h :: _ => h | _ => "00:00" end in
    let ymdN := map parseInt (split "-" ymd) in
    let hmN := map parseInt (split ":" hm) in
    let y := numAt ymdN 0 in
    let m := numAt ymdN 1 in
    let d := numAt ymdN 2 in
    let hh := numAt hmN 0 in
    let mm := numAt hmN 1 in
    ofFields zone y (Some (or_default m 1 - 1)) (Some (or_default d 1))
             (Some (or_default hh 0)) (Some (or_default mm 0)) (Some 0) (Some 0).

Definition dateKeyLocal (d : Date) : string :=
  let y := getFullYear zone d in
  let m := padStart (ofNumber (n ← getMonth zone d; Some (n + 1))) 2 "0" in
  let day := padStart (ofNumber (getDate zone d)) 2 "0" in
  ofNumber y ++ "-" ++ m ++ "-" ++ day.

Definition dateKeyFromLocalString (str : string) : string :=
  dateKeyLocal (parseLocalDateTime str).

(** *** Filters *)

(** The text a query is searched in. *)
Definition haystack (it : PostItem.t) : string :=
  join " "
    ([orEmpty (PostItem.imageName it); orEmpty (PostItem.owner it);
      orEmpty (PostItem.notes it)]
     ++ map (fun p => caption (PostItem.platforms it p)) PLATFORMS
     ++ [join " " (PostItem.tags it); PostItem.status it]).

(** The callback of [items.filter] in [filtered]. *)
Definition filteredKeep (f : Filters) (it : PostItem.t) : bool :=
  if negb (String.eqb (statusFilter f) "Tutti")
     && negb (String.eqb (PostItem.status it) (statusFilter f)) then false
  else if match platformFilter f with
          | Tutte => false
          | Solo p => negb (enabled (PostItem.platforms it p))
          end then false
  else if onlyScheduled f && negb (present (PostItem.scheduledAt it)) then false
  else if present (selectedDate f)
          && (negb (present (PostItem.scheduledAt it))
              || negb (String.eqb
                         (dateKeyFromLocalString (orEmpty (PostItem.scheduledAt it)))
                         (orEmpty (selectedDate f)))) then false
  else
    let q := toLowerCase (trim (query f)) in
    if negb (truthy q) then true
    else includes (toLowerCase (haystack it)) q.

Definition filtered (f : Filters) (posts : list PostItem.t) : list PostItem.t :=
  List.filter (filteredKeep f) posts.

(** The callback of [items.filter] in [calendarItems]. *)
Definition calendarKeep (f : Filters) (it : PostItem.t) : bool :=
  (String.eqb (statusFilter f) "Tutti"
   || String.eqb (PostItem.status it) (statusFilter f))
  && match platformFilter f with
     | Tutte => true
     | Solo p => enabled (PostItem.platforms it p)
     end
  && (negb (onlyScheduled f) || present (PostItem.scheduledAt it))
  && (if truthy (query f)
      then includes (toLowerCase (haystack it)) (toLowerCase (query f))
      else true).

Definition calendarItems (f : Filters) (posts : list PostItem.t) : list PostItem.t :=
  List.filter (calendarKeep f) posts.

(** *** Item updates *)

Definition updateItem (id : string) (patch : Patch.t) (prev : list PostItem.t)
  : list PostItem.t :=
  map (fun it => if String.eqb (PostItem.id it) id then spread it patch else it) prev.

Definition removeItem (id : string) (prev : list PostItem.t) : list PostItem.t :=
  List.filter (fun it => negb (String.eqb (PostItem.id it) id)) prev.

(** *** Aggregation per day *)

(** One turn of the inner loop over [PLATFORMS]. *)
Definition bumpSeverity (it : PostItem.t) (sev : gmap Platform Z) (p : Platform)
  : gmap Platform Z :=
  if negb (enabled (PostItem.platforms it p)) then sev
  else <[p := Z.max (default 0 (sev !! p)) (statusToSeverity (PostItem.status it))]> sev.

(** One turn of the loop over the items.  The map is a plain object
  indexed by day keys, which start with a digit, a minus sign or
  [NaN]: none is a property that an empty object inherits. *)
Definition addPost (m : gmap string Bucket) (it : PostItem.t) : gmap string Bucket :=
  if negb (present (PostItem.scheduledAt it)) then m
  else
    let dayKey := dateKeyFromLocalString (orEmpty (PostItem.scheduledAt it)) in
    let b := default {| items := []; platformSeverity := ∅ |} (m !! dayKey) in
    <[dayKey := {| items := items b ++ [it];
                   platformSeverity :=
                     foldl (bumpSeverity it) (platformSeverity b) PLATFORMS |}]> m.

Definition postsByDay (posts : list PostItem.t) : gmap string Bucket :=
  foldl addPost ∅ posts.

(** *** Month grid *)

Definition startOfWeek (d : Date) : Date :=
  let day := (w ← getDay zone d; Some (Z.rem (w + 6) 7)) in
  let out := copy d in
  let out := setDate zone out (a ← getDate zone d; b ← day; Some (a - b)) in
  setHours zone out 0 0 0 0.

Definition addMonths (d : Date) (delta : Z) : Date :=
  let out := copy d in
  let out := setMonth zone out (m ← getMonth zone d; Some (m + delta)) in
  ofYMD zone (getFullYear zone out) (getMonth zone out) (Some 1).

(** The 42 dates pushed by the loop of [weeks]. *)
Definition gridDays (start : Date) : list Date :=
  map (fun i => setDate zone (copy start) (a ← getDate zone start; Some (a + i)))
      (seqZ 0 42).

Definition weeks (cursor : Date) : list (list Date) :=
  let year := getFullYear zone cursor in
  let month := getMonth zone cursor in
  let first := ofYMD zone year month (Some 1) in
  let start := startOfWeek first in
  chunk (gridDays start) 7.

End Calendar.

(** ** Vocabulary of the statements *)

(** *** Texts *)

(** Every character of [s] satisfies [P]. *)
Fixpoint all_chars (P : ascii -> bool) (s : string) : bool :=
  match s with
  | EmptyString => true
  | String c r => P c && all_chars P r
  end.

(** [c] is not the separator [sep]. *)
Definition differs (sep c : ascii) : bool := negb (Ascii.eqb c sep).

(** The texts of two and of four given digits. *)
Definition digits2 (a b : Z) : string :=
  String (digit_char a) (String (digit_char b) EmptyString).

Definition digits4 (a b c d : Z) : string :=
  String (digit_char a) (String (digit_char b) (digits2 c d)).

(** The texts [YYYY-MM-DD] and [YYYY-MM-DDThh:mm] of the given fields
    (month counted from 1), as [<input type="datetime-local">] writes
    them. *)
Definition twoDigits (n : Z) : string := padStart (ofZ n) 2 "0".
Definition fourDigits (n : Z) : string := padStart (ofZ n) 4 "0".

Definition dateText (y m d : Z) : string :=
  fourDigits y ++ "-" ++ twoDigits m ++ "-" ++ twoDigits d.

Definition localText (y m d hh mi : Z) : string :=
  dateText y m d ++ "T" ++ twoDigits hh ++ ":" ++ twoDigits mi.

(** *** Dates *)

(** Real zone offsets stay within a day of UTC. *)
Definition validOffset (tza : Z) : Prop := Z.abs tza <= msPerDay.


(** A time value at least a hundred days inside the range of [Date]. *)
Definition farFromLimits (t : Z) : Prop := Z.abs t + 100 * msPerDay <= maxTime.

(** The offsets of a zone stay within a day of UTC. *)
Definition validZone (zone : Zone) : Prop :=
  Z.abs (baseOffset zone) <= msPerDay
  /\ Forall (fun tr => Z.abs (snd tr) <= msPerDay) (transitions zone).

(** The zone leaves the local time [lt] on its calendar day: taken as
    an instant by [UTC] and shown again by [LocalTime], it is a time of
    the same day.  A fixed offset gives back [lt] itself; a transition
    that skips local times moves a skipped time on by the length of the
    gap, which may be into the next day. *)
Definition keepsDay (zone : Zone) (lt : Z) : Prop :=
  Day (LocalTime zone (UTC zone lt)) = Day lt.




(** The date [new Date(y, m, d)] gives for day number [day]: its local
    midnight, or what the zone makes of it when a transition skipped
    that midnight. *)
Definition midnight (zone : Zone) (day : Z) : Date :=
  TimeValue (UTC zone (MakeDate day 0)).

(** *** Filters *)

(** [it] is scheduled and its day key is [k]. *)
Definition hasDayKey (zone : Zone) (k : string) (it : PostItem.t) : bool :=
  present (PostItem.scheduledAt it)
  && String.eqb (dateKeyFromLocalString zone (orEmpty (PostItem.scheduledAt it))) k.

Definition enabledOn (p : Platform) (it : PostItem.t) : bool :=
  enabled (PostItem.platforms it p).

(** The predicates of the two filters, one by one. *)
Definition statusPasses (f : Filters) (it : PostItem.t) : bool :=
  String.eqb (statusFilter f) "Tutti"
  || String.eqb (PostItem.status it) (statusFilter f).

Definition platformPasses (f : Filters) (it : PostItem.t) : bool :=
  match platformFilter f with
  | Tutte => true
  | Solo p => enabledOn p it
  end.

Definition scheduledPasses (f : Filters) (it : PostItem.t) : bool :=
  negb (onlyScheduled f) || present (PostItem.scheduledAt it).

(** The board's selected-day predicate. *)
Definition selectedDayPasses (zone : Zone) (f : Filters) (it : PostItem.t) : bool :=
  match selectedDate f with
  | None => true
  | Some day => negb (truthy day) || hasDayKey zone day it
  end.

(** The free-text predicate as each of the two filters writes it. *)
Definition boardSearchPasses (f : Filters) (it : PostItem.t) : bool :=
  let q := toLowerCase (trim (query f)) in
  if negb (truthy q) then true else includes (toLowerCase (haystack it)) q.

Definition calendarSearchPasses (f : Filters) (it : PostItem.t) : bool :=
  if truthy (query f)
  then includes (toLowerCase (haystack it)) (toLowerCase (query f))
  else true.

(** The filter state with the day selection cleared. *)
Definition withoutDay (f : Filters) : Filters :=
  {| statusFilter := statusFilter f;
     platformFilter := platformFilter f;
     onlyScheduled := onlyScheduled f;
     selectedDate := None;
     query := query f |}.

(** *** Aggregation *)

Definition severityOf (it : PostItem.t) : Z := statusToSeverity (PostItem.status it).

(** The largest severity among [ps], [0] when there is none. *)
Definition maxSeverity (ps : list PostItem.t) : Z :=
  foldr Z.max 0 (map severityOf ps).

(** What a bucket holding the posts [ps] stores for platform [p]. *)
Definition storedSeverity (p : Platform) (ps : list PostItem.t) : option Z :=
  match List.filter (enabledOn p) ps with
  | [] => None
  | on => Some (maxSeverity on)
  end.

(** The entry the aggregation holds for a day whose posts are [ps]:
    none when there is no post, else the posts in input order and the
    stored severities. *)
Definition bucketFor (ps : list PostItem.t) (entry : option Bucket) : Prop :=
  match ps with
  | [] => entry = None
  | _ => exists b, entry = Some b /\ items b = ps
                   /\ forall p, platformSeverity b !! p = storedSeverity p ps
  end.

(** *** Worked examples *)

(** Central European Time. *)
Definition cet : Z := 3600000.

(** Pacific/Apia around the end of 2011: ten hours behind UTC until the
    end of December 29th, fourteen hours ahead from then on, so that
    December 30th, 2011 did not take place. *)
Definition apia : Zone :=
  {| baseOffset := - 10 * msPerHour;
     transitions :=
       [(MakeDate (MakeDay 2011 11 30) (MakeTime 10 0 0 0), 14 * msPerHour)] |}.

(** Posts of the scenarios: every platform enabled, the given id, status
    and schedule. *)
Definition scenarioPost (id status : string) (sched : option string) : PostItem.t :=
  {| PostItem.id := id;
     PostItem.createdAt := 0;
     PostItem.imageUrl := None;
     PostItem.imageName := Some "foto.png";
     PostItem.platforms := fun _ => {| enabled := true; caption := "testo" |};
     PostItem.scheduledAt := sched;
     PostItem.owner := Some "Ada";
     PostItem.notes := None;
     PostItem.status := status;
     PostItem.tags := ["reel"] |}.

Definition postA : PostItem.t := scenarioPost "A" "Approvato" (Some "2025-10-29T09:00").
Definition postB : PostItem.t := scenarioPost "B" "Da correggere" (Some "2025-10-29T18:00").
Definition postC : PostItem.t := scenarioPost "C" "Bozza" (Some "2025-10-30T10:00").
Definition postD : PostItem.t := scenarioPost "D" "Bozza" None.

(** The patch without any key. *)
Definition emptyPatch : Patch.t :=
  {| Patch.id := None; Patch.createdAt := None; Patch.imageUrl := None;
     Patch.imageName := None; Patch.platforms := None; Patch.scheduledAt := None;
     Patch.owner := None; Patch.notes := None; Patch.status := None;
     Patch.tags := None |}.

(** No filter set, and the text [q] in the search box. *)
Definition searchOnly (q : string) : Filters :=
  {| statusFilter := "Tutti"; platformFilter := Tutte; onlyScheduled := false;
     selectedDate := None; query := q |}.

(** No filter set but the day [day] selected. *)
Definition daySelected (day : string) : Filters :=
  {| statusFilter := "Tutti"; platformFilter := Tutte; onlyScheduled := false;
     selectedDate := Some day; query := EmptyString |}.

(** No filter set but the status [s]. *)
Definition statusOnly (s : string) : Filters :=
  {| statusFilter := s; platformFilter := Tutte; onlyScheduled := false;
     selectedDate := None; query := EmptyString |}.

(** No filter set but the scheduled-only switch. *)
Definition scheduledOnly : Filters :=
  {| statusFilter := "Tutti"; platformFilter := Tutte; onlyScheduled := true;
     selectedDate := None; query := EmptyString |}.

Definition oct2025 : Date := ofYMD cet (Some 2025) (Some 9) (Some 1).




(** The last millisecond of 2025 and the first of 2026. *)
Definition endOf2025 : Date :=
  ofFields cet (Some 2025) (Some 11) (Some 31) (Some 23) (Some 59) (Some 59)
           (Some 999).
Definition startOf2026 : Date := ofYMD cet (Some 2026) (Some 0) (Some 1).





(** ** The rest of the page *)

(** *** Class names and badges *)

(** [classNames(...xs)]: an argument is a string, or one of [false],
    [null] and [undefined], which [None] stands for. *)
Definition classNames (xs : list (option string)) : string :=
  join " " (map orEmpty (List.filter present xs)).

Definition severityBadgeClasses (sev : Z) : string :=
  if (sev =? 3)%Z then "bg-red-100 text-red-800 border-red-300"
  else if (sev =? 2)%Z then "bg-yellow-100 text-yellow-800 border-yellow-300"
  else if (sev =? 1)%Z then "bg-green-100 text-green-800 border-green-300"
  else "bg-gray-100 text-gray-600 border-gray-300".

Definition platformInitial (p : Platform) : string :=
  match p with
  | Instagram => "IG"
  | Facebook => "FB"
  | X => "X"
  | LinkedIn => "LI"
  | TikTok => "TT"
  end.

(** The string a platform is at run time. *)
Definition platformName (p : Platform) : string :=
  match p with
  | Instagram => "Instagram"
  | Facebook => "Facebook"
  | X => "X"
  | LinkedIn => "LinkedIn"
  | TikTok => "TikTok"
  end.

(** *** The cells of the calendar *)

(** [bucket?.platformSeverity?.[p] ?? 0] *)
Definition cellSeverity (bucket : option Bucket) (p : Platform) : Z :=
  match bucket with
  | Some b => default 0 (platformSeverity b !! p)
  | None => 0
  end.

(** The class of the chip of platform [p] in a cell. *)
Definition cellBadge (bucket : option Bucket) (p : Platform) : string :=
  severityBadgeClasses (cellSeverity bucket p).

(** The counter of a cell: [bucket?.items?.length], shown when it is
    not zero. *)
Definition cellCount (bucket : option Bucket) : option nat :=
  match bucket with
  | Some b => if (length (items b) =? 0)%nat then None else Some (length (items b))
  | None => None
  end.

(** [d.getMonth()===cursor.getMonth()]: [NaN] equals nothing. *)
Definition inMonth (zone : Zone) (cursor d : Date) : bool :=
  match getMonth zone d, getMonth zone cursor with
  | Some a, Some b => (a =? b)%Z
  | _, _ => false
  end.

(** [onPickDate(dayKey)] on the filter state: [setSelectedDate(dayKey)]. *)
Definition pickDate (f : Filters) (dayKey : string) : Filters :=
  {| statusFilter := statusFilter f;
     platformFilter := platformFilter f;
     onlyScheduled := onlyScheduled f;
     selectedDate := Some dayKey;
     query := query f |}.

(** The cursor of the first render, [now] being the one [new Date()]
    the initialiser reads. *)
Definition cursorOf (zone : Zone) (now : Date) : Date :=
  ofYMD zone (getFullYear zone now) (getMonth zone now) (Some 1).

(** The cursor of the button Oggi, which calls [new Date()] twice:
    [now1] gives the year, [now2], read after it, the month. *)
Definition oggi (zone : Zone) (now1 now2 : Date) : Date :=
  ofYMD zone (getFullYear zone now1) (getMonth zone now2) (Some 1).

(** *** Uploads *)

(** One row of [readFiles], with the values [uid()] and [Date.now()]
    return when the post is built for it. *)
Record Upload : Type := {
  upUrl : string;
  upName : string;
  upId : string;
  upNow : Z;
}.

Definition freshEntry : PlatformEntry := {| enabled := true; caption := EmptyString |}.

(** [PLATFORMS.reduce((acc,p)=>({ ...acc, [p]: {...} }), {})] *)
Definition freshPlatformMap : gmap Platform PlatformEntry :=
  foldl (fun acc p => <[p := freshEntry]> acc) ∅ PLATFORMS.

(** The object read as [PostItem['platforms']]; the entry given for a
    missing key is never read, the reduce sets all five. *)
Definition freshPlatforms (p : Platform) : PlatformEntry :=
  default {| enabled := false; caption := EmptyString |} (freshPlatformMap !! p).

Definition newPost (u : Upload) : PostItem.t :=
  {| PostItem.id := upId u;
     PostItem.createdAt := upNow u;
     PostItem.imageUrl := Some (upUrl u);
     PostItem.imageName := Some (upName u);
     PostItem.platforms := freshPlatforms;
     PostItem.scheduledAt := None;
     PostItem.owner := None;
     PostItem.notes := None;
     PostItem.status := "Bozza";
     PostItem.tags := [] |}.

(** The update [addFromFiles] hands to [setItems]. *)
Definition addFromFiles (rows : list Upload) (prev : list PostItem.t) : list PostItem.t :=
  (map newPost rows ++ prev)%list.

(** *** Edits of a card *)

(** [Partial<{ enabled: boolean; caption: string }>] *)
Record EntryPatch : Type := {
  patchEnabled : option bool;
  patchCaption : option string;
}.

(** [{ ...entry, ...patch }] *)
Definition spreadEntry (e : PlatformEntry) (patch : EntryPatch) : PlatformEntry :=
  {| enabled := default (enabled e) (patchEnabled patch);
     caption := default (caption e) (patchCaption patch) |}.

(** [{ ...item.platforms, [p]: { ...item.platforms[p], ...patch } }] *)
Definition platformsWith (item : PostItem.t) (p : Platform) (patch : EntryPatch)
  : Platform -> PlatformEntry :=
  fun q => if decide (q = p) then spreadEntry (PostItem.platforms item p) patch
           else PostItem.platforms item q.

(** A patch with the one key [platforms], [tags] or [status]. *)
Definition platformsPatch (v : Platform -> PlatformEntry) : Patch.t :=
  {| Patch.id := None; Patch.createdAt := None; Patch.imageUrl := None;
     Patch.imageName := None; Patch.platforms := Some v; Patch.scheduledAt := None;
     Patch.owner := None; Patch.notes := None; Patch.status := None;
     Patch.tags := None |}.

Definition tagsPatch (v : list string) : Patch.t :=
  {| Patch.id := None; Patch.createdAt := None; Patch.imageUrl := None;
     Patch.imageName := None; Patch.platforms := None; Patch.scheduledAt := None;
     Patch.owner := None; Patch.notes := None; Patch.status := None;
     Patch.tags := Some v |}.

Definition statusPatch (v : string) : Patch.t :=
  {| Patch.id := None; Patch.createdAt := None; Patch.imageUrl := None;
     Patch.imageName := None; Patch.platforms := None; Patch.scheduledAt := None;
     Patch.owner := None; Patch.notes := None; Patch.status := Some v;
     Patch.tags := None |}.

(** [setPlatform(p, patch)] of the card that renders [item], as the
    update of the collection it asks for. *)
Definition setPlatform (item : PostItem.t) (p : Platform) (patch : EntryPatch)
    (prev : list PostItem.t) : list PostItem.t :=
  updateItem (PostItem.id item) (platformsPatch (platformsWith item p patch)) prev.

(** [tags.includes(tag)] *)
Definition hasTag (tags : list string) (tag : string) : bool :=
  existsb (String.eqb tag) tags.

(** The tags [toggleTag(tag)] asks for. *)
Definition toggledTags (tags : list string) (tag : string) : list string :=
  if hasTag tags tag
  then List.filter (fun t => negb (String.eqb t tag)) tags
  else (tags ++ [tag])%list.

Definition toggleTag (item : PostItem.t) (tag : string) (prev : list PostItem.t)
  : list PostItem.t :=
  updateItem (PostItem.id item) (tagsPatch (toggledTags (PostItem.tags item) tag)) prev.

(** The three status buttons of a card. *)
Definition setStatus (item : PostItem.t) (status : string) (prev : list PostItem.t)
  : list PostItem.t :=
  updateItem (PostItem.id item) (statusPatch status) prev.

(** *** The select of the filters bar *)

(** The update a [SelectItem] hands to [setItems]: an option is added
    once per value. *)
Definition registerItem {L : Type} (value : string) (label : L)
    (prev : list (string * L)) : list (string * L) :=
  if existsb (fun it => String.eqb (fst it) value) prev then prev
  else (prev ++ [(value, label)])%list.

(** The items of a [Select] after its [SelectItem]s registered, from
    the first state, the placeholder with the empty value. *)
Definition selectItems {L : Type} (placeholder : L) (options : list (string * L))
  : list (string * L) :=
  foldl (fun acc o => registerItem (fst o) (snd o) acc)
        [(EmptyString, placeholder)] options.

(** [it.value===v] *)
Definition hasValue {L : Type} (v : string) (it : string * L) : bool :=
  String.eqb (fst it) v.

(** What the platform select can hand to [setPlatformFilter]: the empty
    value of the placeholder, ["Tutte"] or a platform. *)
Inductive PlatformChoice : Type :=
| Seleziona
| TutteLe
| Una (p : Platform).

Definition choiceValue (c : PlatformChoice) : string :=
  match c with
  | Seleziona => EmptyString
  | TutteLe => "Tutte"
  | Una p => platformName p
  end.

(** [it.platforms[v]] for the value of a choice: [undefined] unless
    the value is a platform. *)
Definition platformsAt (it : PostItem.t) (c : PlatformChoice) : option PlatformEntry :=
  match c with
  | Una p => Some (PostItem.platforms it p)
  | _ => None
  end.

(** The typed filter value of a choice that is one. *)
Definition typedChoice (c : PlatformChoice) : option PlatformFilter :=
  match c with
  | Seleziona => None
  | TutteLe => Some Tutte
  | Una p => Some (Solo p)
  end.

Definition withPlatform (f : Filters) (pf : PlatformFilter) : Filters :=
  {| statusFilter := statusFilter f;
     platformFilter := pf;
     onlyScheduled := onlyScheduled f;
     selectedDate := selectedDate f;
     query := query f |}.

(** [arr.filter(keep)] when [keep] may throw ([None]): the elements are
    tried in order and the first throw ends the call. *)
Fixpoint filterThrowing {A : Type} (keep : A -> option bool) (l : list A)
  : option (list A) :=
  match l with
  | [] => Some []
  | a :: rest =>
      match keep a with
      | None => None
      | Some k =>
          match filterThrowing keep rest with
          | None => None
          | Some kept => Some (if k then a :: kept else kept)
          end
      end
  end.

(** The callback of [filtered] with the platform filter as the select
    gives it; reading [enabled] of [undefined] throws. *)
Definition filteredKeepOf (zone : Zone) (c : PlatformChoice) (f : Filters)
    (it : PostItem.t) : option bool :=
  if negb (String.eqb (statusFilter f) "Tutti")
     && negb (String.eqb (PostItem.status it) (statusFilter f)) then Some false
  else
    off ← (if negb (String.eqb (choiceValue c) "Tutte")
           then e ← platformsAt it c; Some (negb (enabled e))
           else Some false);
    if (off : bool) then Some false
    else if onlyScheduled f && negb (present (PostItem.scheduledAt it)) then Some false
    else if present (selectedDate f)
            && (negb (present (PostItem.scheduledAt it))
                || negb (String.eqb
                           (dateKeyFromLocalString zone (orEmpty (PostItem.scheduledAt it)))
                           (orEmpty (selectedDate f)))) then Some false
    else
      let q := toLowerCase (trim (query f)) in
      if negb (truthy q) then Some true
      else Some (includes (toLowerCase (haystack it)) q).

Definition filteredOf (zone : Zone) (c : PlatformChoice) (f : Filters)
    (posts : list PostItem.t) : option (list PostItem.t) :=
  filterThrowing (filteredKeepOf zone c f) posts.

(** The callback of [calendarItems], likewise. *)
Definition calendarKeepOf (c : PlatformChoice) (f : Filters) (it : PostItem.t)
  : option bool :=
  if String.eqb (statusFilter f) "Tutti"
     || String.eqb (PostItem.status it) (statusFilter f)
  then
    on ← (if String.eqb (choiceValue c) "Tutte" then Some true
          else e ← platformsAt it c; Some (enabled e));
    Some ((on : bool)
          && (negb (onlyScheduled f) || present (PostItem.scheduledAt it))
          && (if truthy (query f)
              then includes (toLowerCase (haystack it)) (toLowerCase (query f))
              else true))
  else Some false.

Definition calendarItemsOf (c : PlatformChoice) (f : Filters)
    (posts : list PostItem.t) : option (list PostItem.t) :=
  filterThrowing (calendarKeepOf c f) posts.

(** A year [new Date(y, m, 1)] keeps as it is and [Date] holds whole. *)
Definition plainYear (y : Z) : Prop :=
  (~ (0 <= y <= 99) /\ -271820 <= y <= 275759)%Z.

(** ** Calendar arithmetic *)

Ltac zdiv := Z.to_euclidean_division_equations; lia.

(** Unfolds [LocalTime] and [UTC] of a fixed offset. *)
Ltac fixed_zone :=
  unfold LocalTime, UTC in *;
  cbn [offsetAt offsetOfLocal baseOffset transitions fixedZone] in *.

Ltac ltb_cases :=
  repeat match goal with
         | |- context [(?a <? ?b)%Z] => destruct (Z.ltb_spec a b); try lia
         end.

Section CalendarArithmetic.

Local Open Scope Z_scope.

Lemma isLeap_cases y :
  (isLeap y = true /\ y mod 4 = 0 /\ (y mod 100 <> 0 \/ y mod 400 = 0)) \/
  (isLeap y = false /\ (y mod 4 <> 0 \/ (y mod 100 = 0 /\ y mod 400 <> 0))).
Proof.
  unfold isLeap.
  destruct (Z.eqb_spec (y mod 4) 0), (Z.eqb_spec (y mod 100) 0),
    (Z.eqb_spec (y mod 400) 0); simpl; lia.
Qed.

Lemma leapZ_range y : 0 <= leapZ y <= 1.
Proof. unfold leapZ. destruct (isLeap y); lia. Qed.

Lemma DayFromYear_succ y : DayFromYear (y + 1) = DayFromYear y + DaysInYear y.
Proof.
  unfold DaysInYear, DayFromYear.
  destruct (isLeap_cases y) as [(-> & H)|(-> & H)]; zdiv.
Qed.

Lemma DayFromYear_mono y1 y2 : y1 <= y2 -> DayFromYear y1 <= DayFromYear y2.
Proof. unfold DayFromYear. intros. zdiv. Qed.

(** [YearFromDay] is the year ECMAScript asks for. *)
Lemma YearFromDay_spec d :
  DayFromYear (YearFromDay d) <= d < DayFromYear (YearFromDay d + 1).
Proof. unfold YearFromDay, DayFromYear. zdiv. Qed.

Lemma YearFromDay_unique d y :
  DayFromYear y <= d < DayFromYear (y + 1) -> YearFromDay d = y.
Proof.
  intros H. pose proof (YearFromDay_spec d) as Hs.
  destruct (Z.lt_trichotomy (YearFromDay d) y) as [L|[E|G]]; [|exact E|].
  - pose proof (DayFromYear_mono (YearFromDay d + 1) y). lia.
  - pose proof (DayFromYear_mono (y + 1) (YearFromDay d)). lia.
Qed.

Lemma month_cases m : 0 <= m <= 11 ->
  m = 0 \/ m = 1 \/ m = 2 \/ m = 3 \/ m = 4 \/ m = 5 \/
  m = 6 \/ m = 7 \/ m = 8 \/ m = 9 \/ m = 10 \/ m = 11.
Proof. lia. Qed.

Ltac month_split m H :=
  destruct (month_cases m H)
    as [->|[->|[->|[->|[->|[->|[->|[->|[->|[->|[->| ->]]]]]]]]]]].

Lemma monthOfYearDay_start y m dt :
  0 <= m <= 11 -> 1 <= dt <= DaysInMonth y m ->
  monthOfYearDay (leapZ y) (monthStart (leapZ y) m + dt - 1) = m.
Proof.
  intros Hm Hd. pose proof (leapZ_range y) as Hl. unfold monthOfYearDay.
  month_split m Hm; cbn [monthStart DaysInMonth] in *; ltb_cases.
Qed.

Lemma monthStart_within_year y m dt :
  0 <= m <= 11 -> 1 <= dt <= DaysInMonth y m ->
  0 <= monthStart (leapZ y) m + dt - 1 < DaysInYear y.
Proof.
  intros Hm Hd. unfold DaysInYear.
  month_split m Hm; cbn [monthStart DaysInMonth] in *; unfold leapZ in *;
    destruct (isLeap y); lia.
Qed.

Lemma MakeDay_in_year y m dt :
  0 <= m <= 11 -> MakeDay y m dt = DayFromYear y + monthStart (leapZ y) m + dt - 1.
Proof.
  intros Hm. unfold MakeDay.
  replace (m / 12) with 0 by zdiv. replace (m mod 12) with m by zdiv.
  rewrite Z.add_0_r. reflexivity.
Qed.

(** [MakeDay] carries whole years of months into the year. *)
Lemma MakeDay_normalize y m dt :
  MakeDay y m dt = MakeDay (y + m / 12) (m mod 12) dt.
Proof.
  unfold MakeDay. rewrite Z.mod_mod by lia.
  replace (m mod 12 / 12) with 0 by zdiv. rewrite Z.add_0_r. reflexivity.
Qed.

(** Fields, to day number, back to fields. *)
Lemma civil_roundtrip y m dt t :
  0 <= m <= 11 -> 1 <= dt <= DaysInMonth y m ->
  Day t = MakeDay y m dt ->
  YearFromTime t = y /\ MonthFromTime t = m /\ DateFromTime t = dt.
Proof.
  intros Hm Hd Ht.
  rewrite MakeDay_in_year in Ht by assumption.
  pose proof (monthStart_within_year y m dt Hm Hd) as Hr.
  assert (Hy : YearFromTime t = y).
  { unfold YearFromTime. apply YearFromDay_unique.
    rewrite DayFromYear_succ, Ht. lia. }
  assert (Hw : DayWithinYear t = monthStart (leapZ y) m + dt - 1).
  { unfold DayWithinYear. rewrite Hy, Ht. lia. }
  assert (Hl : InLeapYear t = leapZ y).
  { unfold InLeapYear. rewrite Hy. reflexivity. }
  assert (Hmo : MonthFromTime t = m).
  { unfold MonthFromTime. rewrite Hl, Hw. apply monthOfYearDay_start; assumption. }
  split; [assumption|]. split; [assumption|].
  unfold DateFromTime. rewrite Hmo, Hl, Hw. lia.
Qed.

Lemma DaysInMonth_bound y m : DaysInMonth y m <= 31.
Proof.
  pose proof (leapZ_range y). unfold DaysInMonth.
  repeat match goal with
         | |- context [match ?x with _ => _ end] => destruct x
         end; lia.
Qed.

Lemma DaysInMonth_lower y m : 28 <= DaysInMonth y m.
Proof.
  pose proof (leapZ_range y). unfold DaysInMonth.
  repeat match goal with
         | |- context [match ?x with _ => _ end] => destruct x
         end; lia.
Qed.

Lemma MonthFromTime_range t : 0 <= MonthFromTime t <= 11.
Proof. unfold MonthFromTime, monthOfYearDay. ltb_cases; lia. Qed.

(** Day number, to fields, back to the day number, the date shifted. *)
Lemma MakeDay_of_fields t k :
  MakeDay (YearFromTime t) (MonthFromTime t) (DateFromTime t + k) = Day t + k.
Proof.
  rewrite MakeDay_in_year by apply MonthFromTime_range.
  unfold DateFromTime, DayWithinYear, InLeapYear. lia.
Qed.

Lemma DateFromTime_lower t : 1 <= DateFromTime t.
Proof.
  unfold DateFromTime, MonthFromTime, monthOfYearDay.
  assert (0 <= DayWithinYear t).
  { unfold DayWithinYear. pose proof (YearFromDay_spec (Day t)) as Hs.
    fold (YearFromTime t) in Hs. lia. }
  pose proof (leapZ_range (YearFromTime t)). fold (InLeapYear t) in *.
  repeat match goal with
         | |- context [(?a <? ?b)%Z] => destruct (Z.ltb_spec a b)
         end; cbn [monthStart]; lia.
Qed.

Lemma Day_MakeDate day time :
  0 <= time < msPerDay -> Day (MakeDate day time) = day.
Proof. unfold Day, MakeDate, msPerDay. intros. zdiv. Qed.

Lemma TimeWithinDay_MakeDate day time :
  0 <= time < msPerDay -> TimeWithinDay (MakeDate day time) = time.
Proof. unfold TimeWithinDay, MakeDate, msPerDay. intros. zdiv. Qed.

Lemma TimeWithinDay_range t : 0 <= TimeWithinDay t < msPerDay.
Proof. unfold TimeWithinDay, msPerDay. zdiv. Qed.

Lemma MakeDate_Day t : MakeDate (Day t) (TimeWithinDay t) = t.
Proof. unfold MakeDate, Day, TimeWithinDay, msPerDay. zdiv. Qed.

(** On a host with a fixed offset. *)
Lemma LocalTime_fixed (tza : Z) t : LocalTime tza t = t + tza.
Proof. reflexivity. Qed.

Lemma UTC_fixed (tza : Z) t : UTC tza t = t - tza.
Proof. reflexivity. Qed.

Lemma LocalTime_UTC (tza : Z) t : LocalTime tza (UTC tza t) = t.
Proof. rewrite LocalTime_fixed, UTC_fixed. lia. Qed.

Lemma TimeClip_ok t : Z.abs t <= maxTime -> TimeClip t = TimeValue t.
Proof. unfold TimeClip. intros H. destruct (Z.leb_spec (Z.abs t) maxTime); [reflexivity|lia]. Qed.

(** Day numbers of the years the range of [Date] covers whole. *)
Lemma DayFromYear_bounds y :
  -271820 <= y <= 275760 -> -99999900 <= DayFromYear y <= 99999800.
Proof. unfold DayFromYear. intros. zdiv. Qed.

Lemma fieldsInRange_ok y m :
  Z.abs y <= 1000000 -> Z.abs m <= 10000000 -> fieldsInRange y m = true.
Proof.
  intros Hy Hm. unfold fieldsInRange.
  apply andb_true_iff. split; apply Z.leb_le; assumption.
Qed.

(** The year of a time value, and of the local times around it, is one
    [MakeDay] computes with. *)
Lemma YearFromTime_bounds t :
  Z.abs t <= maxTime + 2 * msPerDay -> -271821 <= YearFromTime t <= 275760.
Proof.
  intros Ht. unfold YearFromTime.
  pose proof (YearFromDay_spec (Day t)) as Hs.
  assert (Hd : -100000002 <= Day t <= 100000002)
    by (unfold Day, maxTime, msPerDay in *; zdiv).
  destruct (Z_le_gt_dec (YearFromDay (Day t)) 275760) as [Hu|Hu].
  - destruct (Z_le_gt_dec (-271821) (YearFromDay (Day t))) as [Hl|Hl]; [lia|].
    pose proof (DayFromYear_mono (YearFromDay (Day t) + 1) (-271821) ltac:(lia)) as Hm.
    change (DayFromYear (-271821)) with (-100000109) in Hm. lia.
  - pose proof (DayFromYear_mono 275761 (YearFromDay (Day t)) ltac:(lia)) as Hm.
    change (DayFromYear 275761) with 100000110 in Hm. lia.
Qed.

End CalendarArithmetic.

(** ** Splitting and reading the schedule text *)

Ltac digit_split k H :=
  let C := fresh in
  assert (C : k = 0%Z \/ k = 1%Z \/ k = 2%Z \/ k = 3%Z \/ k = 4%Z \/
              k = 5%Z \/ k = 6%Z \/ k = 7%Z \/ k = 8%Z \/ k = 9%Z) by lia;
  destruct C as [->|[->|[->|[->|[->|[->|[->|[->|[->| ->]]]]]]]]].

Section ScheduleText.

Local Open Scope string_scope.

Lemma all_chars_app P a b :
  all_chars P (a ++ b) = all_chars P a && all_chars P b.
Proof.
  induction a as [|c a IH]; simpl; [reflexivity|].
  rewrite IH. apply andb_assoc.
Qed.

Lemma all_chars_impl (P Q : ascii -> bool) s :
  (forall c, P c = true -> Q c = true) ->
  all_chars P s = true -> all_chars Q s = true.
Proof.
  intros HPQ. induction s as [|c s IH]; simpl; [reflexivity|].
  intros [Hc Hs]%andb_true_iff. rewrite (HPQ c Hc), (IH Hs). reflexivity.
Qed.

Lemma split_whole sep s :
  all_chars (differs sep) s = true -> split sep s = [s].
Proof.
  induction s as [|c s IH]; simpl; [reflexivity|].
  unfold differs at 1. intros [Hc Hs]%andb_true_iff.
  apply negb_true_iff in Hc. rewrite Hc, (IH Hs). reflexivity.
Qed.

Lemma split_at_sep sep a b :
  all_chars (differs sep) a = true ->
  split sep (a ++ String sep b) = a :: split sep b.
Proof.
  induction a as [|c a IH]; simpl.
  - intros _. rewrite Ascii.eqb_refl. reflexivity.
  - unfold differs at 1. intros [Hc Hs]%andb_true_iff.
    apply negb_true_iff in Hc. rewrite Hc, (IH Hs). reflexivity.
Qed.

Lemma digit_differs (sep c : ascii) :
  is_digit sep = false -> is_digit c = true -> differs sep c = true.
Proof.
  intros Hs Hc. unfold differs. apply negb_true_iff.
  destruct (Ascii.eqb_spec c sep) as [->|]; [congruence|reflexivity].
Qed.

Lemma digits_differ sep s :
  is_digit sep = false -> all_chars is_digit s = true ->
  all_chars (differs sep) s = true.
Proof. intros Hs. apply all_chars_impl. intros c. apply digit_differs, Hs. Qed.

Lemma is_digit_digit_char k : (0 <= k <= 9)%Z -> is_digit (digit_char k) = true.
Proof. intros H. digit_split k H; reflexivity. Qed.

Lemma read_digits_digit_char k r acc n :
  (0 <= k <= 9)%Z ->
  read_digits (String (digit_char k) r) acc n
  = read_digits r (10 * acc + k)%Z (S n).
Proof. intros H. digit_split k H; reflexivity. Qed.

Lemma parseInt_digit_char k r :
  (0 <= k <= 9)%Z ->
  parseInt (String (digit_char k) r)
  = match read_digits (String (digit_char k) r) 0 0 with
    | (_, O) => None
    | (v, _) => Some v
    end.
Proof. intros H. digit_split k H; reflexivity. Qed.

Lemma digits_of_more fuel n acc :
  (10 <= n)%Z ->
  digits_of (S fuel) n acc
  = digits_of fuel (n / 10)%Z (String (digit_char (n mod 10)%Z) acc).
Proof.
  intros H. cbn [digits_of].
  destruct (Z.ltb_spec n 10); [lia|reflexivity].
Qed.

Lemma digits_of_last fuel n acc :
  (n < 10)%Z ->
  digits_of (S fuel) n acc = String (digit_char (n mod 10)%Z) acc.
Proof.
  intros H. cbn [digits_of].
  destruct (Z.ltb_spec n 10); [reflexivity|lia].
Qed.

Lemma ofZ_nonneg n : (0 <= n)%Z -> ofZ n = digits_of 21 n EmptyString.
Proof. intros H. unfold ofZ. destruct (Z.ltb_spec n 0); [lia|reflexivity]. Qed.

(** The two-digit form, digit by digit. *)
Lemma twoDigits_form n :
  (0 <= n <= 99)%Z -> twoDigits n = digits2 (n / 10)%Z (n mod 10)%Z.
Proof.
  intros H. unfold twoDigits, digits2. rewrite ofZ_nonneg by lia.
  destruct (Z.lt_ge_cases n 10).
  - rewrite digits_of_last by lia.
    replace (n / 10)%Z with 0%Z by zdiv. reflexivity.
  - rewrite digits_of_more, digits_of_last by zdiv.
    replace (n / 10 mod 10)%Z with (n / 10)%Z by zdiv. reflexivity.
Qed.

(** The four-digit form, digit by digit; from 1000 on it is the plain
    text of the number. *)
Lemma fourDigits_form n :
  (0 <= n <= 9999)%Z ->
  fourDigits n
  = digits4 (n / 1000)%Z (n / 100 mod 10)%Z (n / 10 mod 10)%Z (n mod 10)%Z
  /\ ((1000 <= n)%Z -> ofZ n = fourDigits n).
Proof.
  intros H. unfold fourDigits, digits4, digits2. rewrite ofZ_nonneg by lia.
  destruct (Z.lt_ge_cases n 10); [|destruct (Z.lt_ge_cases n 100);
    [|destruct (Z.lt_ge_cases n 1000)]].
  - rewrite digits_of_last by lia. split; [|lia].
    replace (n / 1000)%Z with 0%Z by zdiv.
    replace (n / 100 mod 10)%Z with 0%Z by zdiv.
    replace (n / 10 mod 10)%Z with 0%Z by zdiv. reflexivity.
  - rewrite digits_of_more, digits_of_last by zdiv. split; [|lia].
    replace (n / 1000)%Z with 0%Z by zdiv.
    replace (n / 100 mod 10)%Z with 0%Z by zdiv. reflexivity.
  - rewrite !digits_of_more, digits_of_last by zdiv. split; [|lia].
    replace (n / 1000)%Z with 0%Z by zdiv.
    replace (n / 10 / 10 mod 10)%Z with (n / 100 mod 10)%Z by zdiv.
    reflexivity.
  - rewrite !digits_of_more, digits_of_last by zdiv. split; [|reflexivity].
    replace (n / 10 / 10 / 10 mod 10)%Z with (n / 1000)%Z by zdiv.
    replace (n / 10 / 10 mod 10)%Z with (n / 100 mod 10)%Z by zdiv.
    reflexivity.
Qed.

Lemma fourDigits_plain n : (1000 <= n <= 9999)%Z -> ofZ n = fourDigits n.
Proof. intros H. apply fourDigits_form; lia. Qed.

Lemma twoDigits_spec n :
  (0 <= n <= 99)%Z ->
  all_chars is_digit (twoDigits n) = true /\ parseInt (twoDigits n) = Some n
  /\ String.length (twoDigits n) = 2%nat.
Proof.
  intros H. rewrite twoDigits_form by assumption. unfold digits2.
  assert (Ha : (0 <= n / 10 <= 9)%Z) by zdiv.
  assert (Hb : (0 <= n mod 10 <= 9)%Z) by zdiv.
  split; [|split; [|reflexivity]].
  - cbn [all_chars]. rewrite !is_digit_digit_char by assumption. reflexivity.
  - rewrite parseInt_digit_char, !read_digits_digit_char by assumption.
    cbn [read_digits]. f_equal. zdiv.
Qed.

Lemma fourDigits_spec n :
  (0 <= n <= 9999)%Z ->
  all_chars is_digit (fourDigits n) = true /\ parseInt (fourDigits n) = Some n
  /\ String.length (fourDigits n) = 4%nat.
Proof.
  intros H. destruct (fourDigits_form n H) as [-> _]. unfold digits4, digits2.
  assert (Ha : (0 <= n / 1000 <= 9)%Z) by zdiv.
  assert (Hb : (0 <= n / 100 mod 10 <= 9)%Z) by zdiv.
  assert (Hc : (0 <= n / 10 mod 10 <= 9)%Z) by zdiv.
  assert (Hd : (0 <= n mod 10 <= 9)%Z) by zdiv.
  split; [|split; [|reflexivity]].
  - cbn [all_chars]. rewrite !is_digit_digit_char by assumption. reflexivity.
  - rewrite parseInt_digit_char, !read_digits_digit_char by assumption.
    cbn [read_digits]. f_equal. zdiv.
Qed.

Lemma length_append a b :
  String.length (a ++ b) = (String.length a + String.length b)%nat.
Proof. induction a as [|c a IH]; simpl; [reflexivity|]. rewrite IH. reflexivity. Qed.

Lemma substring_prefix a b : substring 0 (String.length a) (a ++ b) = a.
Proof.
  induction a as [|c a IH]; simpl; [destruct b; reflexivity|].
  rewrite IH. reflexivity.
Qed.

Lemma truthy_length s n : String.length s = S n -> truthy s = true.
Proof. destruct s; [discriminate|reflexivity]. Qed.

Lemma dateText_length y m d :
  (0 <= y <= 9999)%Z -> (0 <= m <= 99)%Z -> (0 <= d <= 99)%Z ->
  String.length (dateText y m d) = 10%nat.
Proof.
  intros Hy Hm Hd.
  destruct (fourDigits_spec y Hy) as (_ & _ & Ly).
  destruct (twoDigits_spec m Hm) as (_ & _ & Lm).
  destruct (twoDigits_spec d Hd) as (_ & _ & Ld).
  unfold dateText. rewrite !length_append, Ly, Lm, Ld. reflexivity.
Qed.

End ScheduleText.

(** ** Zones *)

Section Zones.

Local Open Scope Z_scope.


Lemma offsetOfLocal_bound before trs lt :
  Z.abs before <= msPerDay ->
  Forall (fun tr => Z.abs (snd tr) <= msPerDay) trs ->
  Z.abs (offsetOfLocal before trs lt) <= msPerDay.
Proof.
  revert before.
  induction trs as [|[instant after] trs IH]; intros before Hb Ht; [exact Hb|].
  apply Forall_cons in Ht as [Ha Ht]. cbn [offsetOfLocal].
  destruct (lt <? instant + Z.max before after); [exact Hb|apply IH; assumption].
Qed.


Lemma UTC_near zone lt :
  validZone zone -> Z.abs (UTC zone lt - lt) <= msPerDay.
Proof.
  intros [Hb Ht]. unfold UTC.
  pose proof (offsetOfLocal_bound _ _ lt Hb Ht). lia.
Qed.

Lemma validOffset_zone (tza : Z) : validOffset tza -> validZone tza.
Proof. intros H. split; [exact H|constructor]. Qed.

(** A fixed offset moves no time at all. *)
Lemma keepsDay_fixed (tza : Z) lt : keepsDay tza lt.
Proof. unfold keepsDay. rewrite LocalTime_UTC. reflexivity. Qed.


End Zones.

(** ** From the schedule text to the day key *)

Section DayKey.

Local Open Scope Z_scope.

Variable zone : Zone.
Hypothesis zone_ok : validZone zone.

Lemma truthy_app a b : truthy a = true -> truthy (a ++ b) = true.
Proof. destruct a; [discriminate|reflexivity]. Qed.

Ltac no_separator :=
  unfold dateText; rewrite ?all_chars_app; repeat (apply andb_true_iff; split);
  try reflexivity; (apply digits_differ; [reflexivity|assumption]).

(** The texts of the form [YYYY-MM-DDThh:mm] are read field by field. *)
Lemma parseLocalDateTime_localText y m d hh mi :
  0 <= y <= 9999 -> 1 <= m <= 99 -> 1 <= d <= 99 ->
  0 <= hh <= 99 -> 0 <= mi <= 99 ->
  parseLocalDateTime zone (localText y m d hh mi)
  = ofFields zone (Some y) (Some (m - 1)) (Some d) (Some hh) (Some mi)
             (Some 0) (Some 0).
Proof.
  intros Hy Hm Hd Hh Hi.
  destruct (fourDigits_spec y Hy) as (Dy & Py & Ty%truthy_length).
  destruct (twoDigits_spec m) as (Dm & Pm & _); [lia|].
  destruct (twoDigits_spec d) as (Dd & Pd & _); [lia|].
  destruct (twoDigits_spec hh Hh) as (Dh & Ph & _).
  destruct (twoDigits_spec mi Hi) as (Di & Pi & _).
  unfold parseLocalDateTime, localText.
  assert (Tymd : truthy (dateText y m d) = true)
    by (unfold dateText; apply truthy_app, Ty).
  rewrite (truthy_app _ _ Tymd). cbn [negb].
  set (ymd := dateText y m d).
  set (hm := (twoDigits hh ++ ":" ++ twoDigits mi)%string).
  assert (HT : split "T" (ymd ++ "T" ++ hm) = [ymd; hm]).
  { change (ymd ++ "T" ++ hm)%string with (ymd ++ String "T" hm)%string.
    rewrite split_at_sep by (subst ymd; no_separator).
    rewrite split_whole by (subst hm; no_separator). reflexivity. }
  rewrite HT. cbn [nth].
  assert (HD : split "-" ymd = [fourDigits y; twoDigits m; twoDigits d]).
  { subst ymd. unfold dateText.
    change (fourDigits y ++ "-" ++ twoDigits m ++ "-" ++ twoDigits d)%string
      with (fourDigits y ++ String "-" (twoDigits m ++ String "-" (twoDigits d)))%string.
    rewrite !split_at_sep by no_separator.
    rewrite split_whole by no_separator. reflexivity. }
  assert (HC : split ":" hm = [twoDigits hh; twoDigits mi]).
  { subst hm.
    change (twoDigits hh ++ ":" ++ twoDigits mi)%string
      with (twoDigits hh ++ String ":" (twoDigits mi))%string.
    rewrite split_at_sep by no_separator.
    rewrite split_whole by no_separator. reflexivity. }
  rewrite HD, HC. cbn [map numAt lookup list_lookup].
  rewrite Py, Pm, Pd, Ph, Pi.
  f_equal; f_equal; unfold or_default.
  - destruct m; lia.
  - destruct d; lia.
  - destruct hh; lia.
  - destruct mi; lia.
Qed.

(** Every moment of the years [-271820 .. 275759] is a time value. *)
Lemma zone_in_range y m d time :
  -271820 <= y <= 275759 -> 0 <= m <= 11 -> 1 <= d <= DaysInMonth y m ->
  0 <= time < msPerDay ->
  Z.abs (UTC zone (MakeDate (MakeDay y m d) time)) <= maxTime.
Proof.
  intros Hr Hm Hd Ht.
  pose proof (monthStart_within_year y m d Hm Hd) as Hw.
  pose proof (DayFromYear_bounds y ltac:(lia)) as Hb.
  pose proof (DayFromYear_bounds (y + 1) ltac:(lia)) as Hb'.
  rewrite DayFromYear_succ in Hb'.
  pose proof (UTC_near zone (MakeDate (MakeDay y m d) time) zone_ok) as Hu.
  rewrite MakeDay_in_year in * by assumption.
  unfold MakeDate, maxTime, msPerDay in *. lia.
Qed.

(** The date a valid field tuple builds. *)
Lemma ofFields_value y m d hh mi :
  ~ (0 <= y <= 99) -> -271820 <= y <= 275759 ->
  0 <= m <= 11 -> 1 <= d <= DaysInMonth y m ->
  0 <= hh <= 23 -> 0 <= mi <= 59 ->
  ofFields zone (Some y) (Some m) (Some d) (Some hh) (Some mi) (Some 0) (Some 0)
  = TimeValue (UTC zone (MakeDate (MakeDay y m d) (MakeTime hh mi 0 0))).
Proof.
  intros Hy Hr Hm Hd Hh Hi.
  assert (Ht : 0 <= MakeTime hh mi 0 0 < msPerDay)
    by (unfold MakeTime, msPerHour, msPerMinute, msPerSecond, msPerDay; lia).
  unfold ofFields.
  destruct (Z.leb_spec 0 y), (Z.leb_spec y 99); cbn [andb]; try lia;
    rewrite fieldsInRange_ok by lia;
    apply TimeClip_ok, zone_in_range; assumption.
Qed.

(** The key of a date that the zone shows on a day of the years 1000 to
    9999 is the text of that day. *)
Lemma dateKeyLocal_of_day y m d u :
  1000 <= y <= 9999 -> 1 <= m <= 12 -> 1 <= d <= DaysInMonth y (m - 1) ->
  Day (LocalTime zone u) = MakeDay y (m - 1) d ->
  dateKeyLocal zone (TimeValue u) = dateText y m d.
Proof.
  intros Hy Hm Hd E.
  destruct (civil_roundtrip y (m - 1) d (LocalTime zone u))
    as (Gy & Gm & Gd); [lia|assumption|exact E|].
  unfold dateKeyLocal, getFullYear, getMonth, getDate, localField.
  rewrite Gy, Gm, Gd. cbn [mbind option_bind ofNumber].
  replace (m - 1 + 1) with m by lia.
  rewrite fourDigits_plain by lia. reflexivity.
Qed.

(** The key of a text [YYYY-MM-DDThh:mm] whose time the zone leaves on
    its day. *)
Lemma localText_key y m d hh mi :
  1000 <= y <= 9999 -> 1 <= m <= 12 -> 1 <= d <= DaysInMonth y (m - 1) ->
  0 <= hh <= 23 -> 0 <= mi <= 59 ->
  keepsDay zone (MakeDate (MakeDay y (m - 1) d) (MakeTime hh mi 0 0)) ->
  dateKeyFromLocalString zone (localText y m d hh mi) = dateText y m d.
Proof.
  intros Hy Hm Hd Hh Hi Hk.
  assert (Hd' : d <= 31).
  { pose proof (DaysInMonth_bound y (m - 1)). lia. }
  assert (Ht : 0 <= MakeTime hh mi 0 0 < msPerDay)
    by (unfold MakeTime, msPerHour, msPerMinute, msPerSecond, msPerDay; lia).
  unfold dateKeyFromLocalString.
  rewrite parseLocalDateTime_localText by lia.
  rewrite ofFields_value by lia.
  apply dateKeyLocal_of_day; try assumption.
  unfold keepsDay in Hk. rewrite Hk. apply Day_MakeDate, Ht.
Qed.

End DayKey.

(** On a host with a fixed offset. *)
Section FixedDayKey.

Local Open Scope Z_scope.

Variable tza : Z.
Hypothesis tza_ok : validOffset tza.

Lemma civil_in_range y m d time :
  -271820 <= y <= 275759 -> 0 <= m <= 11 -> 1 <= d <= DaysInMonth y m ->
  0 <= time < msPerDay ->
  Z.abs (UTC tza (MakeDate (MakeDay y m d) time)) <= maxTime.
Proof. apply zone_in_range, validOffset_zone, tza_ok. Qed.

(** The date a valid field tuple builds, and what is read back from it. *)
Lemma ofFields_fields y m d hh mi :
  ~ (0 <= y <= 99) -> -271820 <= y <= 275759 ->
  0 <= m <= 11 -> 1 <= d <= DaysInMonth y m ->
  0 <= hh <= 23 -> 0 <= mi <= 59 ->
  let dt := ofFields tza (Some y) (Some m) (Some d) (Some hh) (Some mi)
                     (Some 0) (Some 0) in
  dt = TimeValue (UTC tza (MakeDate (MakeDay y m d) (MakeTime hh mi 0 0)))
  /\ getFullYear tza dt = Some y
  /\ getMonth tza dt = Some m
  /\ getDate tza dt = Some d.
Proof.
  intros Hy Hr Hm Hd Hh Hi dt.
  assert (Ht : 0 <= MakeTime hh mi 0 0 < msPerDay)
    by (unfold MakeTime, msPerHour, msPerMinute, msPerSecond, msPerDay; lia).
  assert (E : dt = TimeValue (UTC tza (MakeDate (MakeDay y m d) (MakeTime hh mi 0 0))))
    by (apply ofFields_value; [apply validOffset_zone, tza_ok|assumption..]).
  split; [exact E|]. rewrite E.
  unfold getFullYear, getMonth, getDate, localField.
  rewrite LocalTime_UTC.
  destruct (civil_roundtrip y m d (MakeDate (MakeDay y m d) (MakeTime hh mi 0 0)))
    as (-> & -> & ->); auto using Day_MakeDate.
Qed.

Lemma dateKeyFromLocalString_localText y m d hh mi :
  1000 <= y <= 9999 -> 1 <= m <= 12 -> 1 <= d <= DaysInMonth y (m - 1) ->
  0 <= hh <= 23 -> 0 <= mi <= 59 ->
  dateKeyFromLocalString tza (localText y m d hh mi) = dateText y m d.
Proof.
  intros Hy Hm Hd Hh Hi.
  apply localText_key; try assumption;
    [apply validOffset_zone, tza_ok|apply keepsDay_fixed].
Qed.

End FixedDayKey.

(** ** Weeks and months *)

Section Grid.

Local Open Scope Z_scope.

Variable tza : Z.
Hypothesis tza_ok : validOffset tza.

Lemma Day_bounds t : Day t * msPerDay <= t < Day t * msPerDay + msPerDay.
Proof. unfold Day, msPerDay. zdiv. Qed.

Lemma WeekDay_range t : 0 <= WeekDay t <= 6.
Proof. unfold WeekDay. zdiv. Qed.

Lemma WeekDay_midnight day : WeekDay (MakeDate day 0) = (day + 4) mod 7.
Proof. unfold WeekDay. rewrite Day_MakeDate; [reflexivity|unfold msPerDay; lia]. Qed.

Lemma DateFromTime_upper t : DateFromTime t <= 31.
Proof.
  unfold DateFromTime, MonthFromTime, monthOfYearDay.
  assert (DayWithinYear t < 365 + InLeapYear t).
  { unfold DayWithinYear, InLeapYear. pose proof (YearFromDay_spec (Day t)) as Hs.
    fold (YearFromTime t) in Hs. rewrite DayFromYear_succ in Hs.
    unfold DaysInYear, leapZ in *. destruct (isLeap (YearFromTime t)); lia. }
  pose proof (leapZ_range (YearFromTime t)). fold (InLeapYear t) in *.
  repeat match goal with
         | |- context [(?a <? ?b)%Z] => destruct (Z.ltb_spec a b)
         end; cbn [monthStart]; lia.
Qed.

(** [startOfWeek] goes back to the local midnight of the Monday. *)
Lemma startOfWeek_value t :
  Z.abs t + 8 * msPerDay <= maxTime ->
  let lt := LocalTime tza t in
  startOfWeek tza (TimeValue t)
  = midnight tza (Day lt - (WeekDay lt + 6) mod 7).
Proof.
  intros Hr lt. unfold validOffset in *.
  pose proof (WeekDay_range lt) as Hw.
  pose proof (Day_bounds lt) as Hd.
  pose proof (TimeWithinDay_range lt) as Ht.
  pose proof (MakeDate_Day lt) as Hlt.
  set (k := (WeekDay lt + 6) mod 7).
  assert (Hk : 0 <= k <= 6) by (subst k; zdiv).
  unfold startOfWeek, getDay, getDate, localField. fold lt.
  cbn [mbind option_bind].
  rewrite Z.rem_mod_nonneg by lia. fold k.
  unfold copy. rewrite TimeClip_ok by (unfold maxTime, msPerDay in *; lia).
  unfold setDate. fold lt.
  replace (DateFromTime lt - k) with (DateFromTime lt + - k) by lia.
  rewrite MakeDay_of_fields.
  rewrite TimeClip_ok
    by (fixed_zone; unfold MakeDate, maxTime, msPerDay in *; lia).
  unfold setHours. rewrite LocalTime_UTC, Day_MakeDate by assumption.
  change (MakeTime 0 0 0 0) with 0.
  rewrite TimeClip_ok
    by (fixed_zone; unfold MakeDate, maxTime, msPerDay in *; lia).
  replace (Day lt + - k) with (Day lt - k) by lia. reflexivity.
Qed.

(** The loop of [weeks] walks on day by day from a midnight. *)
Lemma gridDays_midnight s :
  Z.abs (s * msPerDay) + 45 * msPerDay <= maxTime ->
  gridDays tza (midnight tza s) = map (fun i => midnight tza (s + i)) (seqZ 0 42).
Proof.
  intros Hr. unfold gridDays. apply map_ext_in.
  intros i Hi%list_elem_of_In%elem_of_seqZ.
  unfold validOffset in *.
  unfold midnight, copy.
  rewrite TimeClip_ok by (fixed_zone; unfold MakeDate, maxTime, msPerDay in *; lia).
  unfold getDate, localField, setDate. cbn [mbind option_bind].
  rewrite LocalTime_UTC, MakeDay_of_fields.
  rewrite Day_MakeDate, TimeWithinDay_MakeDate by (unfold msPerDay; lia).
  apply TimeClip_ok. fixed_zone. unfold MakeDate, maxTime, msPerDay in *. lia.
Qed.

(** The first day of the month of a valid date. *)
Lemma ofYMD_first t :
  farFromLimits t ->
  let lt := LocalTime tza t in
  ~ (0 <= YearFromTime lt <= 99) ->
  ofYMD tza (Some (YearFromTime lt)) (Some (MonthFromTime lt)) (Some 1)
  = midnight tza (MakeDay (YearFromTime lt) (MonthFromTime lt) 1)
  /\ Day lt - 30 <= MakeDay (YearFromTime lt) (MonthFromTime lt) 1 <= Day lt.
Proof.
  intros Hr lt Hy. unfold farFromLimits, validOffset in *.
  pose proof (MakeDay_of_fields lt (1 - DateFromTime lt)) as E.
  replace (DateFromTime lt + (1 - DateFromTime lt)) with 1 in E by lia.
  pose proof (DateFromTime_lower lt). pose proof (DateFromTime_upper lt).
  pose proof (Day_bounds lt) as Hd.
  pose proof (MonthFromTime_range lt) as Hm.
  assert (Hyr : -271821 <= YearFromTime lt <= 275760).
  { apply YearFromTime_bounds. subst lt. fixed_zone.
    unfold maxTime, msPerDay in *. lia. }
  split; [|lia].
  unfold ofYMD, ofFields.
  destruct (Z.leb_spec 0 (YearFromTime lt)), (Z.leb_spec (YearFromTime lt) 99);
    cbn [andb]; try lia; change (MakeTime 0 0 0 0) with 0; rewrite E;
    rewrite fieldsInRange_ok by lia;
    apply TimeClip_ok; fixed_zone; unfold MakeDate, maxTime, msPerDay in *; lia.
Qed.

(** A date built by [new Date(y, m, 1)] with a month [0..11], as every
    cursor of the calendar is, is never in the years [0..99]. *)
Lemma cursor_year y m t :
  0 <= m <= 11 ->
  ofYMD tza (Some y) (Some m) (Some 1) = TimeValue t ->
  ~ (0 <= YearFromTime (LocalTime tza t) <= 99).
Proof.
  intros Hm E. unfold ofYMD, ofFields in E.
  set (yr := if (0 <=? y) && (y <=? 99) then 1900 + y else y) in E.
  destruct (fieldsInRange yr m) in E; [|discriminate E].
  unfold TimeClip in E.
  destruct (Z.abs _ <=? maxTime) in E; [|discriminate].
  injection E as <-. rewrite LocalTime_UTC.
  destruct (civil_roundtrip yr m 1 (MakeDate (MakeDay yr m 1) (MakeTime 0 0 0 0)))
    as (-> & _).
  - assumption.
  - pose proof (DaysInMonth_lower yr m). lia.
  - apply Day_MakeDate. change (MakeTime 0 0 0 0) with 0. unfold msPerDay. lia.
  - subst yr. destruct (Z.leb_spec 0 y), (Z.leb_spec y 99); cbn [andb]; lia.
Qed.

Lemma chunk_from_map {A B} (f : A -> B) fuel l n :
  chunk_from fuel (map f l) n = map (map f) (chunk_from fuel l n).
Proof.
  revert l. induction fuel as [|fuel IH]; intros l; [reflexivity|].
  destruct l as [|a l]; [reflexivity|].
  change (map f (a :: l)) with (f a :: map f l) at 1. cbn [chunk_from].
  change (f a :: map f l) with (map f (a :: l)).
  rewrite firstn_map, skipn_map, IH. reflexivity.
Qed.

Lemma chunk_map {A B} (f : A -> B) l n :
  chunk (map f l) n = map (map f) (chunk l n).
Proof. unfold chunk. rewrite length_map. apply chunk_from_map. Qed.


(** The grid of a valid cursor: 42 midnights in a row from the Monday. *)
Lemma weeks_value t :
  farFromLimits t ->
  let lt := LocalTime tza t in
  ~ (0 <= YearFromTime lt <= 99) ->
  let first := MakeDay (YearFromTime lt) (MonthFromTime lt) 1 in
  let start := first - ((first + 4) mod 7 + 6) mod 7 in
  weeks tza (TimeValue t)
  = chunk (map (fun i => midnight tza (start + i)) (seqZ 0 42)) 7.
Proof.
  intros Hr lt Hy first start.
  destruct (ofYMD_first t Hr Hy) as [E Hf]. fold lt first in E, Hf.
  pose proof (Day_bounds lt) as Hd.
  assert (Hs : first - 6 <= start <= first) by (subst start; zdiv).
  unfold farFromLimits, validOffset in *.
  unfold weeks, getFullYear, getMonth, localField. fold lt. rewrite E.
  unfold midnight at 1. rewrite startOfWeek_value
    by (fixed_zone; unfold MakeDate, maxTime, msPerDay in *; lia).
  rewrite LocalTime_UTC, WeekDay_midnight, Day_MakeDate by (unfold msPerDay; lia).
  fold start. rewrite gridDays_midnight; [reflexivity|].
  fixed_zone. unfold maxTime, msPerDay in *. lia.
Qed.

(** [addMonths] on a day of the month that the target month has. *)
Lemma addMonths_value t delta :
  Z.abs t <= maxTime ->
  let lt := LocalTime tza t in
  let n := 12 * YearFromTime lt + MonthFromTime lt + delta in
  DateFromTime lt <= DaysInMonth (n / 12) (n mod 12) ->
  ~ (0 <= n / 12 <= 99) -> -271820 <= n / 12 <= 275759 ->
  let r := addMonths tza (TimeValue t) delta in
  r = midnight tza (MakeDay (n / 12) (n mod 12) 1)
  /\ getFullYear tza r = Some (n / 12)
  /\ getMonth tza r = Some (n mod 12)
  /\ getDate tza r = Some 1.
Proof.
  intros Hv lt n Hd Hy Hr r.
  pose proof (DateFromTime_lower lt) as Hl.
  pose proof (TimeWithinDay_range lt) as Ht.
  assert (Hm : 0 <= n mod 12 <= 11) by zdiv.
  set (out := MakeDate (MakeDay (n / 12) (n mod 12) (DateFromTime lt))
                       (TimeWithinDay lt)).
  assert (Eo : setMonth tza (copy (TimeValue t))
                 (m ← getMonth tza (TimeValue t); Some (m + delta))
               = TimeValue (UTC tza out)).
  { unfold copy. rewrite TimeClip_ok by assumption.
    unfold getMonth, localField, setMonth. fold lt. cbn [mbind option_bind].
    assert (Hyr : -271821 <= YearFromTime lt <= 275760).
    { apply YearFromTime_bounds. subst lt. unfold validOffset in tza_ok.
      fixed_zone. unfold maxTime, msPerDay in *. lia. }
    pose proof (MonthFromTime_range lt) as Hmr.
    rewrite fieldsInRange_ok by (subst n; zdiv).
    rewrite MakeDay_normalize.
    replace (YearFromTime lt + (MonthFromTime lt + delta) / 12) with (n / 12)
      by (subst n; zdiv).
    replace ((MonthFromTime lt + delta) mod 12) with (n mod 12)
      by (subst n; zdiv).
    apply TimeClip_ok, civil_in_range; (assumption || lia). }
  destruct (civil_roundtrip (n / 12) (n mod 12) (DateFromTime lt) out)
    as (Gy & Gm & _); [assumption|lia|apply Day_MakeDate, Ht|].
  assert (H1 : 1 <= 1 <= DaysInMonth (n / 12) (n mod 12)) by lia.
  destruct (ofFields_fields tza tza_ok (n / 12) (n mod 12) 1 0 0)
    as (E & Fy & Fm & Fd); try lia.
  assert (Er : r = ofYMD tza (Some (n / 12)) (Some (n mod 12)) (Some 1)).
  { subst r. unfold addMonths. rewrite Eo.
    unfold getFullYear, getMonth, localField.
    rewrite LocalTime_UTC, Gy, Gm. reflexivity. }
  rewrite Er. unfold ofYMD. rewrite Fy, Fm, Fd. repeat split. exact E.
Qed.

End Grid.

(** ** The grid on any host *)

Section ZoneGrid.

Local Open Scope Z_scope.

Variable zone : Zone.
Hypothesis zone_ok : validZone zone.





End ZoneGrid.




(** ** Aggregation per day *)

Section Aggregation.

Local Open Scope Z_scope.
Local Open Scope list_scope.

Variable zone : Zone.

Lemma statusToSeverity_range s : 0 <= statusToSeverity s <= 3.
Proof.
  unfold statusToSeverity.
  repeat match goal with |- context [String.eqb ?a ?b] => destruct (String.eqb a b) end; lia.
Qed.

Lemma maxSeverity_snoc ps it :
  maxSeverity (ps ++ [it]) = Z.max (maxSeverity ps) (severityOf it).
Proof.
  unfold maxSeverity. induction ps as [|a ps IH]; cbn [app map foldr] in *; lia.
Qed.

Lemma maxSeverity_nonneg ps : 0 <= maxSeverity ps.
Proof. unfold maxSeverity. induction ps; cbn [map foldr]; lia. Qed.

Lemma maxSeverity_upper ps it : In it ps -> severityOf it <= maxSeverity ps.
Proof.
  unfold maxSeverity. induction ps as [|a ps IH]; cbn [map foldr]; [intros []|].
  intros [->|H]; [lia|]. specialize (IH H). lia.
Qed.

Lemma maxSeverity_attained ps :
  ps <> [] -> exists it, In it ps /\ severityOf it = maxSeverity ps.
Proof.
  induction ps as [|a ps IH]; [congruence|]. intros _.
  destruct ps as [|b ps].
  - exists a. split; [left; reflexivity|].
    unfold maxSeverity, severityOf. cbn [map foldr].
    pose proof (statusToSeverity_range (PostItem.status a)). lia.
  - destruct IH as (it & Hin & E); [congruence|].
    change (maxSeverity (a :: b :: ps))
      with (Z.max (severityOf a) (maxSeverity (b :: ps))).
    destruct (Z.le_ge_cases (severityOf a) (maxSeverity (b :: ps))).
    + exists it. split; [right; exact Hin|lia].
    + exists a. split; [left; reflexivity|lia].
Qed.

Lemma storedSeverity_snoc p ps it :
  storedSeverity p (ps ++ [it])
  = if enabledOn p it
    then Some (Z.max (default 0 (storedSeverity p ps)) (severityOf it))
    else storedSeverity p ps.
Proof.
  unfold storedSeverity. rewrite List.filter_app. cbn [List.filter].
  destruct (enabledOn p it); [|rewrite app_nil_r; reflexivity].
  destruct (List.filter (enabledOn p) ps) as [|a on].
  - cbn. f_equal. unfold maxSeverity. cbn. lia.
  - change ((a :: on) ++ [it]) with (a :: (on ++ [it])).
    cbn [default]. f_equal.
    change (a :: (on ++ [it])) with ((a :: on) ++ [it]).
    apply maxSeverity_snoc.
Qed.

(** The inner loop: every enabled platform is raised to the post's
    severity, the others are left alone. *)
Lemma foldl_bumpSeverity it l sev p :
  foldl (bumpSeverity it) sev l !! p
  = if bool_decide (p ∈ l) && enabledOn p it
    then Some (Z.max (default 0 (sev !! p)) (severityOf it))
    else sev !! p.
Proof.
  revert sev. induction l as [|q l IH]; intros sev; [reflexivity|].
  cbn [foldl]. rewrite IH. unfold bumpSeverity. fold (enabledOn q it).
  fold (severityOf it).
  destruct (decide (q = p)) as [->|Hne].
  - rewrite (bool_decide_eq_true_2 (p ∈ p :: l)) by (left).
    destruct (enabledOn p it); cbn [negb andb].
    + rewrite lookup_insert_eq.
      destruct (bool_decide (p ∈ l)); cbn [andb from_option]; unfold id;
        f_equal; lia.
    + rewrite andb_false_r. reflexivity.
  - assert (E : bool_decide (p ∈ q :: l) = bool_decide (p ∈ l)).
    { apply bool_decide_ext. rewrite elem_of_cons.
      split; [intros [?|?]; [congruence|assumption]|intros ?; right; assumption]. }
    rewrite E.
    destruct (enabledOn q it); cbn [negb]; [|reflexivity].
    rewrite lookup_insert_ne by assumption. reflexivity.
Qed.

Lemma bumpSeverity_PLATFORMS it sev p :
  foldl (bumpSeverity it) sev PLATFORMS !! p
  = if enabledOn p it
    then Some (Z.max (default 0 (sev !! p)) (severityOf it))
    else sev !! p.
Proof.
  rewrite foldl_bumpSeverity.
  rewrite bool_decide_eq_true_2; [reflexivity|].
  unfold PLATFORMS. destruct p; set_solver.
Qed.

Lemma postsByDay_snoc posts it :
  postsByDay zone (posts ++ [it]) = addPost zone (postsByDay zone posts) it.
Proof. unfold postsByDay. rewrite foldl_app. reflexivity. Qed.

Lemma hasDayKey_true k it :
  hasDayKey zone k it = true
  <-> present (PostItem.scheduledAt it) = true
      /\ dateKeyFromLocalString zone (orEmpty (PostItem.scheduledAt it)) = k.
Proof.
  unfold hasDayKey. rewrite andb_true_iff, String.eqb_eq. reflexivity.
Qed.

(** The loop invariant: what the map holds for [k] after any prefix. *)
Lemma postsByDay_lookup posts k :
  bucketFor (List.filter (hasDayKey zone k) posts) (postsByDay zone posts !! k).
Proof.
  induction posts as [|it posts IH] using rev_ind.
  - cbn. apply lookup_empty.
  - rewrite postsByDay_snoc, List.filter_app. cbn [List.filter].
    set (m := postsByDay zone posts) in *.
    set (ps := List.filter (hasDayKey zone k) posts) in *.
    unfold addPost, hasDayKey.
    destruct (present (PostItem.scheduledAt it)); cbn [negb andb];
      [|rewrite app_nil_r; exact IH].
    set (dk := dateKeyFromLocalString zone (orEmpty (PostItem.scheduledAt it))).
    destruct (String.eqb_spec dk k) as [Hdk|Hne].
    + rewrite Hdk, lookup_insert_eq.
      assert (Hb : exists b0, default {| items := []; platformSeverity := ∅ |} (m !! k) = b0
                    /\ items b0 = ps
                    /\ forall p, platformSeverity b0 !! p = storedSeverity p ps).
      { unfold bucketFor in IH. destruct ps as [|a ps'].
        - rewrite IH. eexists. split; [reflexivity|]. split; [reflexivity|].
          intros p. apply lookup_empty.
        - destruct IH as (b & -> & Hi & Hs). exists b. auto. }
      destruct Hb as (b0 & -> & Hi & Hs).
      assert (Hne : ps ++ [it] <> []) by (destruct ps; discriminate).
      unfold bucketFor. destruct (ps ++ [it]) as [|a l] eqn:E; [congruence|].
      rewrite <- E. eexists. split; [reflexivity|]. cbn [items platformSeverity].
      split; [rewrite Hi; reflexivity|].
      intros p. rewrite bumpSeverity_PLATFORMS, storedSeverity_snoc, Hs. reflexivity.
    + rewrite lookup_insert_ne by assumption. rewrite app_nil_r. exact IH.
Qed.

(** A post that is not scheduled leaves the map as it is. *)
Lemma addPost_unscheduled m it :
  present (PostItem.scheduledAt it) = false -> addPost zone m it = m.
Proof. intros H. unfold addPost. rewrite H. reflexivity. Qed.

Lemma postsByDay_skip before it after :
  present (PostItem.scheduledAt it) = false ->
  postsByDay zone (before ++ it :: after) = postsByDay zone (before ++ after).
Proof.
  intros H. unfold postsByDay. rewrite !foldl_app. cbn [foldl].
  rewrite addPost_unscheduled by assumption. reflexivity.
Qed.

End Aggregation.

(** ** Filters and updates *)

Section FiltersAndUpdates.

Local Open Scope list_scope.

Variable zone : Zone.

(** The board's callback is the conjunction of its five predicates. *)
Lemma filteredKeep_split f it :
  filteredKeep zone f it
  = statusPasses f it && platformPasses f it && scheduledPasses f it
    && selectedDayPasses zone f it && boardSearchPasses f it.
Proof.
  unfold filteredKeep, statusPasses, platformPasses, scheduledPasses,
    selectedDayPasses, boardSearchPasses, hasDayKey, enabledOn.
  destruct (String.eqb (statusFilter f) "Tutti"),
    (String.eqb (PostItem.status it) (statusFilter f));
    cbn [negb andb orb]; try reflexivity;
    (destruct (platformFilter f) as [|p];
     [|destruct (enabled (PostItem.platforms it p))];
     cbn [negb andb orb]; try reflexivity;
     destruct (onlyScheduled f), (present (PostItem.scheduledAt it));
     cbn [negb andb orb]; try reflexivity;
     destruct (selectedDate f) as [day|]; cbn [present orEmpty negb andb orb];
     try reflexivity;
     destruct (truthy day); cbn [negb andb orb]; try reflexivity;
     destruct (String.eqb _ day); reflexivity).
Qed.

(** The calendar's callback is the conjunction of its four. *)
Lemma calendarKeep_split f it :
  calendarKeep f it
  = statusPasses f it && platformPasses f it && scheduledPasses f it
    && calendarSearchPasses f it.
Proof. reflexivity. Qed.

Lemma truthy_toLowerCase s : truthy (toLowerCase s) = truthy s.
Proof. destruct s; reflexivity. Qed.

(** The no-break space U+00A0 is trimmed like the space, and the capital
    letters of Latin-1 have a lower case: [U+00C0] gives [U+00E0]. *)
Lemma trim_toLowerCase_latin1 :
  trim " bozza " = "bozza"
  /\ trim (String "160" ("bozza" ++ String "160" "")) = "bozza"
  /\ toLowerCase (String "192" "Bozza") = String "224" "bozza"
  /\ toLowerCase (String "215" "") = String "215" "".
Proof. repeat split. Qed.

(** On a query without surrounding white space the two free-text
    predicates agree. *)
Lemma search_agree_trimmed f it :
  trim (query f) = query f ->
  boardSearchPasses f it = calendarSearchPasses f it.
Proof.
  intros E. unfold boardSearchPasses, calendarSearchPasses.
  rewrite E, truthy_toLowerCase. destruct (truthy (query f)); reflexivity.
Qed.

Lemma selectedDayPasses_withoutDay f it :
  selectedDayPasses zone (withoutDay f) it = true.
Proof. reflexivity. Qed.

Lemma filteredKeep_withoutDay f it :
  filteredKeep zone f it
  = filteredKeep zone (withoutDay f) it && selectedDayPasses zone f it.
Proof.
  rewrite !filteredKeep_split, selectedDayPasses_withoutDay.
  unfold statusPasses, platformPasses, scheduledPasses, boardSearchPasses.
  cbn [withoutDay statusFilter platformFilter onlyScheduled query].
  repeat match goal with |- context [?a && ?b] =>
    match a with context [_ && _] => fail 1 | _ => idtac end;
    match b with context [_ && _] => fail 1 | _ => idtac end;
    destruct a; cbn [andb]; try reflexivity end.
  all: rewrite ?andb_true_r, ?andb_false_r; reflexivity.
Qed.

Lemma filter_idempotent {A} (keep : A -> bool) l :
  List.filter keep (List.filter keep l) = List.filter keep l.
Proof.
  induction l as [|a l IH]; [reflexivity|]. cbn [List.filter].
  destruct (keep a) eqn:E; [|exact IH].
  cbn [List.filter]. rewrite E, IH. reflexivity.
Qed.

Lemma spread_emptyPatch it : spread it emptyPatch = it.
Proof. destruct it; reflexivity. Qed.

Lemma updateItem_lookup id patch prev i :
  updateItem id patch prev !! i
  = (fun it => if String.eqb (PostItem.id it) id then spread it patch else it)
      <$> prev !! i.
Proof.
  unfold updateItem. revert i.
  induction prev as [|a prev IH]; intros [|i]; cbn; auto.
Qed.

(** The posts left by [removeItem] are a sublist of the input. *)
Lemma removeItem_sublist id prev : sublist (removeItem id prev) prev.
Proof.
  unfold removeItem. induction prev as [|a prev IH]; cbn [List.filter].
  - constructor.
  - destruct (negb (String.eqb (PostItem.id a) id)); constructor; exact IH.
Qed.

End FiltersAndUpdates.

(** * The claims *)

Local Open Scope Z_scope.
Local Open Scope list_scope.
Local Open Scope string_scope.

(** Closes a side condition on concrete numbers. *)
Ltac concrete :=
  first [ assumption | lia
        | vm_compute; repeat split; discriminate
        | vm_compute; intros [_ H]; apply H; reflexivity ].

(** ** C1 *)

(** C1, as amended: for every text [YYYY-MM-DDThh:mm] of a real calendar
    date in the years 1000 to 9999 and a valid hour and minute, on every
    host whose zone leaves that local time on its day (a host with a
    fixed offset leaves every time where it is; only a time that a zone
    transition skips is moved), [dateKeyFromLocalString] returns the
    [YYYY-MM-DD] part of the text, its first ten characters, whatever
    the time of day; so it does on ["2025-03-01T00:30"] and
    ["2025-10-31T23:59"]. *)
Theorem dateKeyFromLocalString_date_part (zone : Zone) y m d hh mi :
  validZone zone ->
  1000 <= y <= 9999 -> 1 <= m <= 12 -> 1 <= d <= DaysInMonth y (m - 1) ->
  0 <= hh <= 23 -> 0 <= mi <= 59 ->
  keepsDay zone (MakeDate (MakeDay y (m - 1) d) (MakeTime hh mi 0 0)) ->
  dateKeyFromLocalString zone (localText y m d hh mi) = dateText y m d
  /\ dateText y m d = substring 0 10 (localText y m d hh mi)
  /\ (keepsDay zone (MakeDate (MakeDay 2025 2 1) (MakeTime 0 30 0 0)) ->
      dateKeyFromLocalString zone "2025-03-01T00:30" = "2025-03-01")
  /\ (keepsDay zone (MakeDate (MakeDay 2025 9 31) (MakeTime 23 59 0 0)) ->
      dateKeyFromLocalString zone "2025-10-31T23:59" = "2025-10-31")
  /\ (forall (tza : Z) lt, keepsDay tza lt).
Proof.
  intros Hz Hy Hm Hd Hh Hi Hk.
  pose proof (DaysInMonth_bound y (m - 1)) as Hb.
  split; [apply localText_key; assumption|].
  split.
  { unfold localText.
    rewrite <- (dateText_length y m d) by lia.
    symmetry. apply substring_prefix. }
  split; [|split].
  - intros K. change "2025-03-01T00:30" with (localText 2025 3 1 0 30).
    rewrite (localText_key zone Hz) by (exact K || concrete).
    reflexivity.
  - intros K. change "2025-10-31T23:59" with (localText 2025 10 31 23 59).
    rewrite (localText_key zone Hz) by (exact K || concrete).
    reflexivity.
  - exact keepsDay_fixed.
Qed.

(** Where the amended conditions fail.  The texts of June 15th of the
    years 50 and 500 are valid, and the key is neither time their date
    part: the year comes back as 1950, and as the unpadded 500.  On a
    host in Pacific/Apia, ten o'clock on December 30th, 2011 is a time
    the zone skipped: it is read as an instant of December 31st, and the
    key is that day's. *)
Lemma dateKeyFromLocalString_not_date_part :
  localText 50 6 15 10 0 = "0050-06-15T10:00"
  /\ dateKeyFromLocalString cet "0050-06-15T10:00" = "1950-06-15"
  /\ localText 500 6 15 10 0 = "0500-06-15T10:00"
  /\ dateKeyFromLocalString cet "0500-06-15T10:00" = "500-06-15"
  /\ dateKeyFromLocalString cet (localText 50 6 15 10 0) <> dateText 50 6 15
  /\ dateKeyFromLocalString cet (localText 500 6 15 10 0) <> dateText 500 6 15
  /\ localText 2011 12 30 10 0 = "2011-12-30T10:00"
  /\ dateKeyFromLocalString apia "2011-12-30T10:00" = "2011-12-31"
  /\ dateKeyFromLocalString apia (localText 2011 12 30 10 0) <> dateText 2011 12 30
  /\ dateKeyFromLocalString apia "2011-12-29T10:00" = "2011-12-29".
Proof. repeat split; try (vm_compute; reflexivity); vm_compute; discriminate. Qed.

Lemma dateKeyFromLocalString_date_part_witness :
  dateKeyFromLocalString cet (localText 2024 2 29 23 59) = dateText 2024 2 29
  /\ dateKeyFromLocalString apia (localText 2011 12 29 23 59) = dateText 2011 12 29
  /\ dateKeyFromLocalString apia (localText 2011 12 31 0 0) = dateText 2011 12 31.
Proof.
  assert (Hc : validZone cet) by (apply validOffset_zone; concrete).
  assert (Ha : validZone apia)
    by (split; [vm_compute; discriminate|repeat constructor; vm_compute; discriminate]).
  split; [|split].
  - apply (dateKeyFromLocalString_date_part cet 2024 2 29 23 59);
      first [exact Hc | concrete | reflexivity].
  - apply (dateKeyFromLocalString_date_part apia 2011 12 29 23 59);
      first [exact Ha | concrete | reflexivity].
  - apply (dateKeyFromLocalString_date_part apia 2011 12 31 0 0);
      first [exact Ha | concrete | reflexivity].
Defined.

(** ** C2 *)

(** C2: the aggregation has an entry for a day key exactly when some
    input post is scheduled with that key; the entry's posts are the
    input posts with that key, in input order, so its count is their
    number; and for each platform the stored severity is the maximum of
    [statusToSeverity] over the entry's posts that enable the platform
    (nothing is stored when none does, which reads as 0).  Two posts of
    one day on one platform with severities 1 and 3 give 3 in either
    order. *)
Theorem postsByDay_buckets tza posts k :
  (is_Some (postsByDay tza posts !! k)
   <-> exists it, In it posts /\ hasDayKey tza k it = true)
  /\ (forall b, postsByDay tza posts !! k = Some b ->
        items b = List.filter (hasDayKey tza k) posts
        /\ length (items b) = length (List.filter (hasDayKey tza k) posts)
        /\ forall p,
             let on := List.filter (enabledOn p) (items b) in
             default 0 (platformSeverity b !! p) = maxSeverity on
             /\ (on = [] -> platformSeverity b !! p = None)
             /\ (on <> [] ->
                 platformSeverity b !! p = Some (maxSeverity on)
                 /\ (exists it, In it on /\ severityOf it = maxSeverity on)
                 /\ forall it, In it on -> severityOf it <= maxSeverity on))
  /\ (forall a b p,
        hasDayKey tza k a = true -> hasDayKey tza k b = true ->
        enabledOn p a = true -> enabledOn p b = true ->
        severityOf a = 1 -> severityOf b = 3 ->
        exists ab ba,
          postsByDay tza [a; b] !! k = Some ab
          /\ postsByDay tza [b; a] !! k = Some ba
          /\ length (items ab) = 2%nat /\ length (items ba) = 2%nat
          /\ platformSeverity ab !! p = Some 3
          /\ platformSeverity ba !! p = Some 3).
Proof.
  split; [|split].
  - pose proof (postsByDay_lookup tza posts k) as H. unfold bucketFor in H.
    destruct (List.filter (hasDayKey tza k) posts) as [|x l] eqn:E.
    + rewrite H. split; [intros [? ?]; discriminate|].
      intros (it & Hin & Hk).
      assert (Hf : In it (List.filter (hasDayKey tza k) posts))
        by (apply List.filter_In; auto).
      rewrite E in Hf. destruct Hf.
    + destruct H as (b & -> & _). split; [|eauto].
      intros _. exists x.
      assert (Hf : In x (List.filter (hasDayKey tza k) posts))
        by (rewrite E; left; reflexivity).
      apply List.filter_In in Hf. exact Hf.
  - intros b Hb.
    pose proof (postsByDay_lookup tza posts k) as H. unfold bucketFor in H.
    rewrite Hb in H.
    destruct (List.filter (hasDayKey tza k) posts) as [|x l] eqn:E; [discriminate|].
    destruct H as (b' & [= <-] & Hi & Hs).
    split; [exact Hi|]. split; [rewrite Hi; reflexivity|].
    intros p on. rewrite Hs. unfold storedSeverity. rewrite <- Hi. fold on.
    destruct on as [|o on'] eqn:Eon.
    + split; [reflexivity|]. split; [reflexivity|congruence].
    + split; [reflexivity|]. split; [congruence|]. intros _.
      split; [reflexivity|].
      split; [apply maxSeverity_attained; congruence|apply maxSeverity_upper].
  - intros a b p Ka Kb Ea Eb Sa Sb.
    pose proof (postsByDay_lookup tza [a; b] k) as Hab.
    pose proof (postsByDay_lookup tza [b; a] k) as Hba.
    cbn [List.filter] in Hab, Hba. rewrite Ka, Kb in Hab, Hba.
    destruct Hab as (ab & Lab & Iab & Pab), Hba as (ba & Lba & Iba & Pba).
    exists ab, ba. rewrite Lab, Lba, Iab, Iba, Pab, Pba.
    unfold storedSeverity, maxSeverity. cbn [List.filter].
    rewrite Ea, Eb. cbn [map foldr]. rewrite Sa, Sb.
    repeat split.
Qed.

Lemma postsByDay_buckets_witness :
  exists bucket,
    postsByDay cet [postA; postB] !! "2025-10-29" = Some bucket
    /\ length (items bucket) = 2%nat
    /\ platformSeverity bucket !! Instagram = Some 3.
Proof.
  destruct (postsByDay_buckets cet [] "2025-10-29") as (_ & _ & H).
  destruct (H postA postB Instagram) as (ab & _ & E & _ & L & _ & P & _);
    try reflexivity.
  exists ab. auto.
Defined.

(** ** C3 *)

(** C3, at an input where it fails: with nothing set but the query
    ["bozza "] (a trailing space), the board keeps a draft post, because
    it trims the query, and the calendar drops it, because it does
    not. *)
Theorem filters_disagree_on_padded_query tza :
  query (searchOnly "bozza ") = "bozza "
  /\ toLowerCase (haystack postD)
     = "foto.png ada  testo testo testo testo testo reel bozza"
  /\ filtered tza (searchOnly "bozza ") [postD] = [postD]
  /\ calendarItems (searchOnly "bozza ") [postD] = [].
Proof. repeat split. Qed.

(** X1: when the query has no white space around it ([query.trim()] is
    the query; the no-break space U+00A0 is white space), the calendar's
    filter is the board's filter with the day selection cleared. *)
Theorem filters_agree_on_trimmed_query zone f posts :
  trim (query f) = query f ->
  calendarItems f posts = filtered zone (withoutDay f) posts.
Proof.
  intros E. unfold calendarItems, filtered. apply List.filter_ext.
  intros it. rewrite calendarKeep_split, filteredKeep_split.
  rewrite selectedDayPasses_withoutDay, andb_true_r.
  rewrite <- (search_agree_trimmed f it E). reflexivity.
Qed.

Lemma filters_agree_on_trimmed_query_witness :
  calendarItems (searchOnly "bozza") [postA; postD] = [postD]
  /\ filtered cet (searchOnly "bozza") [postA; postD] = [postD].
Proof.
  rewrite (filters_agree_on_trimmed_query cet (searchOnly "bozza") [postA; postD]);
    [split|]; reflexivity.
Defined.

(** ** C4 *)

(** C4: [statusToSeverity] is total, sends "Approvato" to 1, "In
    revisione" to 2, "Da correggere" to 3 and "Bozza" to 0, stays within
    0..3 on every string, and is 0 on every string other than the three
    it names. *)
Theorem statusToSeverity_total :
  statusToSeverity "Approvato" = 1
  /\ statusToSeverity "In revisione" = 2
  /\ statusToSeverity "Da correggere" = 3
  /\ statusToSeverity "Bozza" = 0
  /\ forall s : string,
       0 <= statusToSeverity s <= 3
       /\ (statusToSeverity s = 0
           \/ s = "Approvato" \/ s = "In revisione" \/ s = "Da correggere").
Proof.
  repeat (split; [reflexivity|]). intros s.
  split; [apply statusToSeverity_range|].
  unfold statusToSeverity.
  destruct (String.eqb_spec s "Approvato"); [auto|].
  destruct (String.eqb_spec s "In revisione"); [auto|].
  destruct (String.eqb_spec s "Da correggere"); auto.
Qed.

(** ** C5 *)

(** C5: [parseLocalDateTime] of the empty text is the invalid date, not
    an error; and a post whose [scheduledAt] is absent or empty, put
    anywhere in the input, leaves the whole aggregation as it is without
    that post: no entry appears, no count and no severity changes. *)
Theorem unscheduled_post_ignored tza before it after :
  PostItem.scheduledAt it = None \/ PostItem.scheduledAt it = Some "" ->
  parseLocalDateTime tza "" = InvalidDate
  /\ isValid (parseLocalDateTime tza "") = false
  /\ postsByDay tza (before ++ it :: after) = postsByDay tza (before ++ after)
  /\ forall k, ~ hasDayKey tza k it = true.
Proof.
  intros H.
  assert (Hp : present (PostItem.scheduledAt it) = false)
    by (destruct H as [-> | ->]; reflexivity).
  split; [reflexivity|]. split; [reflexivity|].
  split; [apply postsByDay_skip; exact Hp|].
  intros k. unfold hasDayKey. rewrite Hp. discriminate.
Qed.

Lemma unscheduled_post_ignored_witness :
  postsByDay cet ([postA] ++ postD :: [postB]) = postsByDay cet ([postA] ++ [postB]).
Proof.
  apply (unscheduled_post_ignored cet [postA] postD [postB]).
  left. reflexivity.
Defined.

(** ** C6 *)




(** ** C7 *)




(** ** C8 *)

(** C8: the board lists a post exactly when the post is in the
    collection, passes the status, platform, scheduled-only and search
    predicates, and passes the selected-day predicate.  That one passes
    every post when no day is selected (the state holds [null], or an
    empty text, which the code reads as none); when a day is selected,
    it passes exactly the posts with a non-empty [scheduledAt] whose day
    key is the selected day.  With 2025-10-29 selected, a post scheduled
    on 2025-10-30 is not in the list, and a post scheduled on 2025-10-29
    that passes the other predicates is. *)
Theorem selected_day_predicate (zone : Zone) f posts it :
  let others :=
    statusPasses f it && platformPasses f it && scheduledPasses f it
    && boardSearchPasses f it in
  let scheduledOn := fun (z : Zone) day =>
    exists s, PostItem.scheduledAt it = Some s /\ s <> ""
              /\ dateKeyFromLocalString z s = day in
  (selectedDate f = None \/ selectedDate f = Some "" ->
   selectedDayPasses zone f it = true
   /\ (In it (filtered zone f posts) <-> In it posts /\ others = true))
  /\ (forall day, selectedDate f = Some day -> day <> "" ->
        (selectedDayPasses zone f it = true <-> scheduledOn zone day)
        /\ (In it (filtered zone f posts)
            <-> In it posts /\ others = true /\ scheduledOn zone day))
  /\ (forall tza : Z, validOffset tza ->
        selectedDate f = Some "2025-10-29" ->
        (PostItem.scheduledAt it = Some "2025-10-30T10:00" ->
         ~ In it (filtered tza f posts))
        /\ (PostItem.scheduledAt it = Some "2025-10-29T09:00" ->
            In it posts -> others = true -> In it (filtered tza f posts))).
Proof.
  intros others scheduledOn.
  assert (Hin : forall z, In it (filtered z f posts)
                  <-> In it posts /\ others = true /\ selectedDayPasses z f it = true).
  { intros z. unfold filtered. rewrite List.filter_In, filteredKeep_split.
    subst others. rewrite !andb_true_iff. tauto. }
  assert (Hsel : forall z day, selectedDate f = Some day -> day <> "" ->
                   (selectedDayPasses z f it = true <-> scheduledOn z day)).
  { intros z day Hs Hne. unfold selectedDayPasses. rewrite Hs.
    assert (Hd : truthy day = true) by (destruct day; [congruence|reflexivity]).
    rewrite Hd. cbn [negb orb]. rewrite hasDayKey_true. subst scheduledOn.
    split.
    - intros [Hp Hk]. destruct (PostItem.scheduledAt it) as [s|]; [|discriminate].
      exists s. repeat split; [|exact Hk]. intros ->. discriminate.
    - intros (s & -> & Hne' & Hk). split; [|exact Hk].
      destruct s; [congruence|reflexivity]. }
  split; [|split].
  - intros Hn.
    assert (Hp : selectedDayPasses zone f it = true)
      by (unfold selectedDayPasses; destruct Hn as [-> | ->]; reflexivity).
    split; [exact Hp|]. rewrite Hin, Hp. tauto.
  - intros day Hs Hne. split; [apply Hsel; assumption|].
    rewrite Hin, (Hsel zone day Hs Hne). reflexivity.
  - intros tza Hz Hs.
    assert (Hne : "2025-10-29" <> "") by discriminate.
    split.
    + intros Hc. rewrite Hin, (Hsel tza _ Hs Hne). intros (_ & _ & s & E & _ & K).
      rewrite Hc in E. injection E as <-.
      change "2025-10-30T10:00" with (localText 2025 10 30 10 0) in K.
      rewrite (dateKeyFromLocalString_localText tza Hz) in K by concrete.
      discriminate K.
    + intros Hc Hp Ho. rewrite Hin, (Hsel tza _ Hs Hne).
      split; [exact Hp|]. split; [exact Ho|].
      exists "2025-10-29T09:00". split; [exact Hc|]. split; [discriminate|].
      change "2025-10-29T09:00" with (localText 2025 10 29 9 0).
      rewrite (dateKeyFromLocalString_localText tza Hz) by concrete.
      reflexivity.
Qed.

Lemma selected_day_predicate_witness :
  ~ In postC (filtered cet (daySelected "2025-10-29") [postA; postB; postC])
  /\ In postA (filtered cet (daySelected "2025-10-29") [postA; postB; postC])
  /\ In postC (filtered cet (searchOnly "") [postA; postB; postC]).
Proof.
  assert (Hz : validOffset cet) by concrete.
  destruct (selected_day_predicate cet (daySelected "2025-10-29")
              [postA; postB; postC] postC) as (_ & _ & HC).
  destruct (selected_day_predicate cet (daySelected "2025-10-29")
              [postA; postB; postC] postA) as (_ & _ & HA).
  destruct (selected_day_predicate cet (searchOnly "")
              [postA; postB; postC] postC) as (HN & _).
  split; [exact (proj1 (HC cet Hz eq_refl) eq_refl)|]. split.
  - apply (proj2 (HA cet Hz eq_refl) eq_refl); [left; reflexivity|reflexivity].
  - apply (proj2 (HN (or_introl eq_refl))). split; [|reflexivity].
    right. right. left. reflexivity.
Defined.

(** ** C9 *)

(** C9: with the scheduled-only flag on, every post the filter keeps has
    a non-empty [scheduledAt]; and with any filter state, filtering the
    filter's output again gives that output (for the board's filter and
    for the calendar's). *)
Theorem filtered_scheduled_only_idempotent tza f g posts :
  onlyScheduled f = true ->
  Forall (fun it => exists s, PostItem.scheduledAt it = Some s /\ s <> "")
         (filtered tza f posts)
  /\ filtered tza g (filtered tza g posts) = filtered tza g posts
  /\ calendarItems g (calendarItems g posts) = calendarItems g posts.
Proof.
  intros Hf. split; [|split; apply filter_idempotent].
  apply List.Forall_forall. intros it Hin.
  apply List.filter_In in Hin as [_ Hk].
  rewrite filteredKeep_split in Hk.
  repeat (apply andb_true_iff in Hk as [Hk ?]).
  match goal with H : scheduledPasses f it = true |- _ => rename H into Hs end.
  unfold scheduledPasses in Hs. rewrite Hf in Hs. cbn [negb orb] in Hs.
  destruct (PostItem.scheduledAt it) as [s|]; [|discriminate].
  exists s. split; [reflexivity|]. intros ->. discriminate.
Qed.

Lemma filtered_scheduled_only_idempotent_witness :
  Forall (fun it => exists s, PostItem.scheduledAt it = Some s /\ s <> "")
         (filtered cet scheduledOnly [postA; postD; postC]).
Proof.
  refine (proj1 (filtered_scheduled_only_idempotent cet scheduledOnly scheduledOnly
                   [postA; postD; postC] eq_refl)).
Defined.

(** ** C10 *)

(** C10: [updateItem] keeps the length and the order; a post with
    another id is the same post at the same place; the matched post
    keeps every field the patch does not have (and takes those it has);
    [removeItem] keeps, in order, exactly the posts with another id: its
    result is a sublist of the input without the id, and the largest
    one. *)
Theorem updateItem_removeItem_frame id patch prev :
  length (updateItem id patch prev) = length prev
  /\ (forall i it, prev !! i = Some it -> PostItem.id it <> id ->
        updateItem id patch prev !! i = Some it)
  /\ (forall i it, prev !! i = Some it -> PostItem.id it = id ->
        exists it', updateItem id patch prev !! i = Some it'
          /\ PostItem.id it' = default (PostItem.id it) (Patch.id patch)
          /\ PostItem.createdAt it' = default (PostItem.createdAt it) (Patch.createdAt patch)
          /\ PostItem.imageUrl it' = default (PostItem.imageUrl it) (Patch.imageUrl patch)
          /\ PostItem.imageName it' = default (PostItem.imageName it) (Patch.imageName patch)
          /\ PostItem.platforms it' = default (PostItem.platforms it) (Patch.platforms patch)
          /\ PostItem.scheduledAt it' = default (PostItem.scheduledAt it) (Patch.scheduledAt patch)
          /\ PostItem.owner it' = default (PostItem.owner it) (Patch.owner patch)
          /\ PostItem.notes it' = default (PostItem.notes it) (Patch.notes patch)
          /\ PostItem.status it' = default (PostItem.status it) (Patch.status patch)
          /\ PostItem.tags it' = default (PostItem.tags it) (Patch.tags patch)
          /\ (patch = emptyPatch -> it' = it))
  /\ (forall it, In it (removeItem id prev) <-> In it prev /\ PostItem.id it <> id)
  /\ sublist (removeItem id prev) prev
  /\ (forall l, sublist l prev -> Forall (fun it => PostItem.id it <> id) l ->
        sublist l (removeItem id prev)).
Proof.
  split; [apply length_map|]. split; [|split; [|split; [|split]]].
  - intros i it Hi Hne. rewrite updateItem_lookup, Hi. cbn.
    apply String.eqb_neq in Hne. rewrite Hne. reflexivity.
  - intros i it Hi He. rewrite updateItem_lookup, Hi. cbn.
    apply String.eqb_eq in He. rewrite He.
    eexists. split; [reflexivity|]. cbn. repeat (split; [reflexivity|]).
    intros ->. apply spread_emptyPatch.
  - intros it. unfold removeItem. rewrite List.filter_In, negb_true_iff, String.eqb_neq.
    reflexivity.
  - apply removeItem_sublist.
  - intros l Hl. unfold removeItem.
    induction Hl as [|x l1 l2 Hl IH|x l1 l2 Hl IH]; intros Hf.
    + constructor.
    + apply Forall_cons in Hf as [Hx Hf]. cbn [List.filter].
      apply String.eqb_neq in Hx. rewrite Hx. cbn [negb].
      constructor. apply IH, Hf.
    + cbn [List.filter]. destruct (negb (String.eqb (PostItem.id x) id));
        [constructor|]; apply IH, Hf.
Qed.

Lemma updateItem_removeItem_frame_witness :
  updateItem "A" emptyPatch [postA; postB] !! 1%nat = Some postB
  /\ sublist [postA] (removeItem "B" [postA; postB]).
Proof.
  split.
  - refine (proj1 (proj2 (updateItem_removeItem_frame "A" emptyPatch [postA; postB]))
              1%nat postB eq_refl _).
    discriminate.
  - refine (proj2 (proj2 (proj2 (proj2 (proj2
              (updateItem_removeItem_frame "B" emptyPatch [postA; postB])))))
              [postA] _ _).
    + repeat constructor.
    + repeat constructor. discriminate.
Defined.


(** * Further properties *)

(** ** Rows *)

Section Rows.

Local Open Scope nat_scope.
Local Open Scope list_scope.

Context {A : Type}.

Lemma chunk_from_spec (size : nat) :
  1 <= size ->
  forall fuel (l : list A), length l <= fuel ->
    concat (chunk_from fuel l size) = l
    /\ length (chunk_from fuel l size) * size < length l + size
    /\ length l <= length (chunk_from fuel l size) * size
    /\ forall i, i < length (chunk_from fuel l size) ->
         chunk_from fuel l size !! i = Some (take size (drop (i * size) l)).
Proof.
  intros Hs. induction fuel as [|fuel IH]; intros l Hl.
  - destruct l; [|cbn in Hl; lia]. cbn. repeat split; intros; lia.
  - destruct l as [|a l]; [cbn; repeat split; intros; lia|].
    cbn [chunk_from].
    destruct (IH (drop size (a :: l))) as (Hc & Hlt & Hge & Hrow).
    { rewrite length_drop. cbn [length] in *. lia. }
    rewrite length_drop in Hlt, Hge.
    cbn [concat length]. rewrite Hc, take_drop.
    split; [reflexivity|]. cbn [length] in *.
    rewrite Nat.mul_succ_l.
    assert (Hz : length (chunk_from fuel (drop size (a :: l)) size) = 0
                 \/ size <= length (chunk_from fuel (drop size (a :: l)) size) * size).
    { destruct (length (chunk_from fuel (drop size (a :: l)) size)); [left; reflexivity|].
      right. rewrite Nat.mul_succ_l. lia. }
    split; [lia|]. split; [lia|].
    intros [|i] Hi; [reflexivity|].
    cbn [lookup list_lookup]. change (list_lookup i) with (lookup (M:=list (list A)) i).
    rewrite Hrow by lia. rewrite drop_drop. reflexivity.
Qed.

End Rows.

(** ** Class names *)

Section ClassNames.

Local Open Scope list_scope.

Lemma string_app_assoc (a b c : string) :
  ((a ++ b) ++ c = a ++ (b ++ c))%string.
Proof.
  induction a as [|x a IH]; [reflexivity|].
  change (String x ((a ++ b) ++ c) = String x (a ++ (b ++ c)))%string.
  f_equal. exact IH.
Qed.

Lemma join_app xs ys :
  xs <> [] -> ys <> [] ->
  join " " (xs ++ ys) = (join " " xs ++ " " ++ join " " ys)%string.
Proof.
  intros Hx Hy. induction xs as [|x xs IH]; [congruence|].
  destruct xs as [|x' xs].
  - cbn [app join]. destruct ys; [congruence|reflexivity].
  - change ((x :: x' :: xs) ++ ys) with (x :: ((x' :: xs) ++ ys)).
    change (join " " (x :: ((x' :: xs) ++ ys)))
      with (x ++ " " ++ join " " ((x' :: xs) ++ ys))%string.
    rewrite IH by congruence.
    change (join " " (x :: x' :: xs)) with (x ++ " " ++ join " " (x' :: xs))%string.
    rewrite !string_app_assoc. reflexivity.
Qed.

Lemma join_truthy x xs : truthy x = true -> truthy (join " " (x :: xs)) = true.
Proof. destruct x; [discriminate|]. destruct xs; reflexivity. Qed.

Lemma kept_truthy (xs : list (option string)) :
  Forall (fun s => truthy s = true) (map orEmpty (List.filter present xs)).
Proof.
  induction xs as [|o xs IH]; [constructor|]. cbn [List.filter].
  destruct (present o) eqn:E; [|exact IH].
  cbn [map]. constructor; [|exact IH]. destruct o; [exact E|discriminate].
Qed.

Lemma classNames_empty xs :
  classNames xs = EmptyString <-> List.filter present xs = [].
Proof.
  unfold classNames. pose proof (kept_truthy xs) as H.
  destruct (List.filter present xs) as [|o l]; [tauto|].
  cbn [map] in *. apply Forall_cons in H as [H _].
  apply (join_truthy _ (map orEmpty l)) in H.
  split; [|discriminate]. intros E. rewrite E in H. discriminate.
Qed.

Lemma classNames_truthy xs :
  truthy (classNames xs)
  = match List.filter present xs with [] => false | _ => true end.
Proof.
  pose proof (classNames_empty xs) as E.
  destruct (List.filter present xs) as [|o l].
  - rewrite (proj2 E) by reflexivity. reflexivity.
  - destruct (classNames xs); [|reflexivity]. destruct E as [E _].
    discriminate E. reflexivity.
Qed.

End ClassNames.

(** X2: [classNames] of a list put together from two parts is
    [classNames] of the two results, so class strings built in steps
    are the ones built at once; a falsy argument ([false], [null],
    [undefined], the empty string) changes nothing wherever it stands;
    and the result is empty exactly when every argument is falsy. *)
Theorem classNames_compose (xs ys : list (option string)) :
  classNames (xs ++ ys) = classNames [Some (classNames xs); Some (classNames ys)]
  /\ (forall o, present o = false -> classNames (xs ++ o :: ys) = classNames (xs ++ ys))
  /\ (classNames xs = EmptyString <-> Forall (fun o => present o = false) xs).
Proof.
  split; [|split].
  - pose proof (classNames_truthy xs) as Tx. pose proof (classNames_truthy ys) as Ty.
    unfold classNames at 1 2. rewrite List.filter_app, map_app. cbn [List.filter present].
    fold (classNames xs) (classNames ys). rewrite Tx, Ty.
    unfold classNames.
    destruct (List.filter present xs) as [|a la];
      destruct (List.filter present ys) as [|b lb].
    + reflexivity.
    + reflexivity.
    + cbn [map app]. rewrite app_nil_r. reflexivity.
    + rewrite join_app by (cbn [map]; discriminate). reflexivity.
  - intros o Ho. unfold classNames. rewrite !List.filter_app. cbn [List.filter].
    rewrite Ho. reflexivity.
  - rewrite classNames_empty. induction xs as [|o xs IH]; cbn [List.filter].
    + split; [constructor|reflexivity].
    + destruct (present o) eqn:E.
      * split; [discriminate|]. intros H. apply Forall_cons in H as [H _]. congruence.
      * rewrite IH. split; [intros H; constructor; assumption|].
        intros H. apply Forall_cons in H as [_ H]. exact H.
Qed.

(** X3: for a size of at least one, the rows of [chunk] put end to end
    are the array; row [i] is the slice [arr.slice(i*size, i*size+size)];
    and the number of rows is the length divided by the size, rounded
    up. *)
Theorem chunk_rows {A : Type} (arr : list A) (size : nat) :
  (1 <= size)%nat ->
  concat (chunk arr size) = arr
  /\ (length (chunk arr size) * size < length arr + size)%nat
  /\ (length arr <= length (chunk arr size) * size)%nat
  /\ forall i, (i < length (chunk arr size))%nat ->
       chunk arr size !! i = Some (take size (drop (i * size) arr)).
Proof. intros H. apply chunk_from_spec; [exact H|reflexivity]. Qed.

Lemma chunk_rows_witness :
  length (chunk [1; 2; 3; 4; 5] 2) = 3%nat
  /\ chunk [1; 2; 3; 4; 5] 2 !! 2%nat = Some [5].
Proof.
  destruct (chunk_rows [1; 2; 3; 4; 5] 2 ltac:(lia)) as (_ & _ & _ & R).
  split; [reflexivity|]. apply (R 2%nat). cbn. lia.
Defined.

(** ** Edits of a card *)

Section CardEdits.

Local Open Scope list_scope.

Lemma hasTag_In tags tag : hasTag tags tag = true <-> In tag tags.
Proof.
  unfold hasTag. rewrite existsb_exists. split.
  - intros (t & Hin & E). apply String.eqb_eq in E. subst. exact Hin.
  - intros H. exists tag. split; [exact H|apply String.eqb_refl].
Qed.

Lemma removed_In tags tag t :
  In t (List.filter (fun t => negb (String.eqb t tag)) tags) <-> In t tags /\ t <> tag.
Proof. rewrite List.filter_In, negb_true_iff, String.eqb_neq. reflexivity. Qed.

Lemma toggledTags_In tags tag t :
  In t (toggledTags tags tag)
  <-> (t = tag /\ ~ In tag tags) \/ (t <> tag /\ In t tags).
Proof.
  unfold toggledTags. destruct (hasTag tags tag) eqn:E.
  - apply hasTag_In in E. rewrite removed_In. tauto.
  - assert (Hn : ~ In tag tags) by (rewrite <- hasTag_In; congruence).
    rewrite in_app_iff. cbn [In].
    destruct (String.eqb_spec t tag) as [->|Hne]; [tauto|].
    split; [intros [H|[H|[]]]; [tauto|congruence]|tauto].
Qed.

Lemma filter_all {B} (keep : B -> bool) l :
  (forall b, In b l -> keep b = true) -> List.filter keep l = l.
Proof.
  induction l as [|b l IH]; intros H; [reflexivity|]. cbn [List.filter].
  rewrite (H b) by (left; reflexivity). rewrite IH; [reflexivity|].
  intros c Hc. apply H. right. exact Hc.
Qed.

Lemma updateItem_at id patch prev i it :
  prev !! i = Some it -> PostItem.id it = id ->
  updateItem id patch prev !! i = Some (spread it patch).
Proof.
  intros Hi He. rewrite updateItem_lookup, Hi. cbn.
  apply String.eqb_eq in He. rewrite He. reflexivity.
Qed.

End CardEdits.

(** X4: [toggleTag] flips the membership of the tag and of no other
    tag; a list of tags without repeats stays so; toggling twice
    gives back the same set of tags, and the same list when the tag was
    absent; and in the collection the card's post gets the new tags and
    keeps every other field. *)
Theorem toggleTag_flips item tag prev i :
  prev !! i = Some item ->
  let tags' := toggledTags (PostItem.tags item) tag in
  (In tag tags' <-> ~ In tag (PostItem.tags item))
  /\ (forall t, t <> tag -> (In t tags' <-> In t (PostItem.tags item)))
  /\ (List.NoDup (PostItem.tags item) -> List.NoDup tags')
  /\ (forall t, In t (toggledTags tags' tag) <-> In t (PostItem.tags item))
  /\ (~ In tag (PostItem.tags item) -> toggledTags tags' tag = PostItem.tags item)
  /\ length (toggleTag item tag prev) = length prev
  /\ exists it', toggleTag item tag prev !! i = Some it'
       /\ PostItem.tags it' = tags'
       /\ PostItem.id it' = PostItem.id item
       /\ PostItem.createdAt it' = PostItem.createdAt item
       /\ PostItem.imageUrl it' = PostItem.imageUrl item
       /\ PostItem.imageName it' = PostItem.imageName item
       /\ PostItem.platforms it' = PostItem.platforms item
       /\ PostItem.scheduledAt it' = PostItem.scheduledAt item
       /\ PostItem.owner it' = PostItem.owner item
       /\ PostItem.notes it' = PostItem.notes item
       /\ PostItem.status it' = PostItem.status item.
Proof.
  intros Hi tags'. subst tags'.
  split; [rewrite toggledTags_In; tauto|].
  split; [intros t Ht; rewrite toggledTags_In; tauto|].
  split.
  { intros Hnd. unfold toggledTags. destruct (hasTag (PostItem.tags item) tag) eqn:E.
    - apply List.NoDup_filter. exact Hnd.
    - apply List.NoDup_app; [exact Hnd|repeat constructor; intros []|].
      intros t Ht [<-|[]]. apply hasTag_In in Ht. congruence. }
  split.
  { intros t. rewrite !toggledTags_In.
    destruct (String.eqb_spec t tag) as [->|Hne]; [|tauto].
    destruct (in_dec String.string_dec tag (PostItem.tags item)); tauto. }
  split.
  { intros Hn. unfold toggledTags at 2.
    assert (E : hasTag (PostItem.tags item) tag = false).
    { destruct (hasTag (PostItem.tags item) tag) eqn:E; [|reflexivity].
      apply hasTag_In in E. contradiction. }
    rewrite E.
    assert (E' : hasTag (PostItem.tags item ++ [tag]) tag = true).
    { apply hasTag_In, in_app_iff. right. left. reflexivity. }
    unfold toggledTags. rewrite E'. rewrite List.filter_app. cbn [List.filter].
    rewrite String.eqb_refl. cbn [negb]. rewrite app_nil_r.
    apply filter_all. intros t Ht. apply negb_true_iff, String.eqb_neq.
    intros ->. contradiction. }
  split; [apply length_map|].
  eexists. split; [apply updateItem_at; [exact Hi|reflexivity]|].
  cbn. repeat split.
Qed.

Lemma toggleTag_flips_witness :
  toggledTags (toggledTags ["reel"] "story") "story" = ["reel"]
  /\ In "story" (toggledTags ["reel"] "story").
Proof.
  destruct (toggleTag_flips postA "story" [postA] 0%nat eq_refl)
    as (Hin & _ & _ & _ & Hback & _).
  split.
  - apply Hback. cbn. intros [H|[]]. discriminate H.
  - apply Hin. cbn. intros [H|[]]. discriminate H.
Defined.

(** X5: [setPlatform(p, patch)] gives the card's post the patched entry
    for [p] and leaves the entries of the other platforms and every
    other field as the card has them; a patch of [enabled] alone keeps
    the caption, a patch of the caption alone keeps [enabled]; the
    collection keeps its length. *)
Theorem setPlatform_frame item p patch prev i :
  prev !! i = Some item ->
  length (setPlatform item p patch prev) = length prev
  /\ exists it', setPlatform item p patch prev !! i = Some it'
       /\ PostItem.platforms it' p = spreadEntry (PostItem.platforms item p) patch
       /\ (forall q, q <> p -> PostItem.platforms it' q = PostItem.platforms item q)
       /\ (patchEnabled patch = None ->
           enabled (PostItem.platforms it' p) = enabled (PostItem.platforms item p))
       /\ (patchCaption patch = None ->
           caption (PostItem.platforms it' p) = caption (PostItem.platforms item p))
       /\ (forall v, patchEnabled patch = Some v -> enabled (PostItem.platforms it' p) = v)
       /\ (forall v, patchCaption patch = Some v -> caption (PostItem.platforms it' p) = v)
       /\ PostItem.id it' = PostItem.id item
       /\ PostItem.createdAt it' = PostItem.createdAt item
       /\ PostItem.imageUrl it' = PostItem.imageUrl item
       /\ PostItem.imageName it' = PostItem.imageName item
       /\ PostItem.scheduledAt it' = PostItem.scheduledAt item
       /\ PostItem.owner it' = PostItem.owner item
       /\ PostItem.notes it' = PostItem.notes item
       /\ PostItem.status it' = PostItem.status item
       /\ PostItem.tags it' = PostItem.tags item.
Proof.
  intros Hi. split; [apply length_map|].
  eexists. split; [apply updateItem_at; [exact Hi|reflexivity]|].
  cbn. unfold platformsWith.
  split; [destruct (decide (p = p)); [reflexivity|congruence]|].
  split; [intros q Hq; destruct (decide (q = p)); [congruence|reflexivity]|].
  destruct (decide (p = p)) as [_|]; [|congruence]. unfold spreadEntry. cbn.
  split; [intros ->; reflexivity|]. split; [intros ->; reflexivity|].
  split; [intros v ->; reflexivity|]. split; [intros v ->; reflexivity|].
  repeat split.
Qed.

Lemma setPlatform_frame_witness :
  exists it',
    setPlatform postA Facebook {| patchEnabled := Some false; patchCaption := None |}
                [postA; postB] !! 0%nat = Some it'
    /\ enabledOn Facebook it' = false
    /\ enabledOn Instagram it' = true
    /\ caption (PostItem.platforms it' Facebook) = "testo".
Proof.
  destruct (setPlatform_frame postA Facebook
              {| patchEnabled := Some false; patchCaption := None |}
              [postA; postB] 0%nat eq_refl)
    as (_ & it' & E & _ & Hq & _ & Hc & He & _).
  exists it'. split; [exact E|]. unfold enabledOn.
  split; [apply He; reflexivity|].
  split; [rewrite Hq by discriminate; reflexivity|].
  rewrite Hc by reflexivity. reflexivity.
Defined.

(** ** The chips of a cell *)

Section Chips.

Local Open Scope Z_scope.
Local Open Scope list_scope.

Variable zone : Zone.

(** What a cell reads for a platform is the largest severity of the
    day's posts that enable it. *)
Lemma cellSeverity_max posts k p :
  cellSeverity (postsByDay zone posts !! k) p
  = maxSeverity (List.filter (enabledOn p) (List.filter (hasDayKey zone k) posts)).
Proof.
  pose proof (postsByDay_lookup zone posts k) as H. unfold bucketFor in H.
  destruct (List.filter (hasDayKey zone k) posts) as [|x l] eqn:E.
  - rewrite H. reflexivity.
  - destruct H as (b & -> & _ & Hs). cbn [cellSeverity]. rewrite Hs.
    unfold storedSeverity.
    destruct (List.filter (enabledOn p) (x :: l)); reflexivity.
Qed.

Lemma maxSeverity_range ps : 0 <= maxSeverity ps <= 3.
Proof.
  unfold maxSeverity, severityOf. induction ps as [|a ps IH]; cbn [map foldr]; [lia|].
  pose proof (statusToSeverity_range (PostItem.status a)). lia.
Qed.

Lemma maxSeverity_is v ps :
  1 <= v ->
  maxSeverity ps = v
  <-> (exists it, In it ps /\ severityOf it = v)
      /\ (forall it, In it ps -> severityOf it <= v).
Proof.
  intros Hv. split.
  - intros E. destruct ps as [|a ps]; [cbn in E; lia|].
    destruct (maxSeverity_attained (a :: ps)) as (it & Hin & Hs); [discriminate|].
    split; [exists it; split; [exact Hin|congruence]|].
    intros x Hx. rewrite <- E. apply maxSeverity_upper, Hx.
  - intros [(it & Hin & Hs) Hall].
    pose proof (maxSeverity_upper ps it Hin) as Hu.
    destruct ps as [|a ps]; [destruct Hin|].
    destruct (maxSeverity_attained (a :: ps)) as (x & Hx & Ex); [discriminate|].
    specialize (Hall x Hx). lia.
Qed.

Lemma maxSeverity_zero ps :
  maxSeverity ps = 0 <-> forall it, In it ps -> severityOf it = 0.
Proof.
  split.
  - intros E it Hin. pose proof (maxSeverity_upper ps it Hin).
    pose proof (statusToSeverity_range (PostItem.status it)). unfold severityOf in *. lia.
  - intros H. destruct ps as [|a ps]; [reflexivity|].
    destruct (maxSeverity_attained (a :: ps)) as (x & Hx & Ex); [discriminate|].
    rewrite <- Ex. apply H, Hx.
Qed.

Lemma severityOf_status it :
  (severityOf it = 3 <-> PostItem.status it = "Da correggere")
  /\ (severityOf it = 2 <-> PostItem.status it = "In revisione")
  /\ (severityOf it = 1 <-> PostItem.status it = "Approvato").
Proof.
  unfold severityOf, statusToSeverity.
  destruct (String.eqb_spec (PostItem.status it) "Approvato") as [->|];
    [repeat split; (discriminate || reflexivity || lia)|].
  destruct (String.eqb_spec (PostItem.status it) "In revisione") as [->|];
    [repeat split; (discriminate || reflexivity || lia)|].
  destruct (String.eqb_spec (PostItem.status it) "Da correggere") as [->|];
    [repeat split; (discriminate || reflexivity || lia)|].
  repeat split; (congruence || lia).
Qed.

Lemma severityBadgeClasses_is v :
  0 <= v <= 3 ->
  (severityBadgeClasses v = "bg-red-100 text-red-800 border-red-300" <-> v = 3)
  /\ (severityBadgeClasses v = "bg-yellow-100 text-yellow-800 border-yellow-300" <-> v = 2)
  /\ (severityBadgeClasses v = "bg-green-100 text-green-800 border-green-300" <-> v = 1)
  /\ (severityBadgeClasses v = "bg-gray-100 text-gray-600 border-gray-300" <-> v = 0).
Proof.
  intros H.
  assert (C : v = 0 \/ v = 1 \/ v = 2 \/ v = 3) by lia.
  destruct C as [->|[->|[->| ->]]]; cbn;
    repeat split; intros; (reflexivity || discriminate || lia).
Qed.

End Chips.

(** X6: the chip of a platform in the cell of a day is red exactly when
    some post of that day that enables the platform is "Da correggere";
    yellow when none is and some is "In revisione"; green when neither
    is and some is "Approvato"; grey otherwise (no such post, drafts, or
    statuses it does not know). *)
Theorem cellBadge_colour tza posts k p :
  let on := List.filter (enabledOn p) (List.filter (hasDayKey tza k) posts) in
  let badge := cellBadge (postsByDay tza posts !! k) p in
  let has := fun s => exists it, In it on /\ PostItem.status it = s in
  (badge = "bg-red-100 text-red-800 border-red-300" <-> has "Da correggere")
  /\ (badge = "bg-yellow-100 text-yellow-800 border-yellow-300"
      <-> has "In revisione" /\ ~ has "Da correggere")
  /\ (badge = "bg-green-100 text-green-800 border-green-300"
      <-> has "Approvato" /\ ~ has "In revisione" /\ ~ has "Da correggere")
  /\ (badge = "bg-gray-100 text-gray-600 border-gray-300"
      <-> ~ has "Approvato" /\ ~ has "In revisione" /\ ~ has "Da correggere").
Proof.
  intros on badge has. subst badge. unfold cellBadge.
  rewrite cellSeverity_max. fold on.
  destruct (severityBadgeClasses_is (maxSeverity on) (maxSeverity_range on))
    as (-> & -> & -> & ->).
  assert (Hhas : forall v s,
             (forall it, severityOf it = v <-> PostItem.status it = s) ->
             (exists it, In it on /\ severityOf it = v) <-> has s).
  { intros v s Hvs. unfold has. split; intros (it & Hin & E); exists it;
      (split; [exact Hin|apply Hvs, E]). }
  pose proof (Hhas 3 "Da correggere" (fun it => proj1 (severityOf_status it))) as H3.
  pose proof (Hhas 2 "In revisione"
                (fun it => proj1 (proj2 (severityOf_status it)))) as H2.
  pose proof (Hhas 1 "Approvato"
                (fun it => proj2 (proj2 (severityOf_status it)))) as H1.
  assert (Hr : forall it, 0 <= severityOf it <= 3)
    by (intros it; apply statusToSeverity_range).
  assert (Hle : forall v, 0 <= v ->
            (forall it, In it on -> severityOf it <= v)
            <-> (forall w, v < w <= 3 -> ~ exists it, In it on /\ severityOf it = w)).
  { intros v Hv. split.
    - intros Hall w Hw (it & Hin & E). specialize (Hall it Hin). lia.
    - intros Hno it Hin. destruct (Z_le_gt_dec (severityOf it) v) as [|Hgt]; [assumption|].
      exfalso. apply (Hno (severityOf it)); [specialize (Hr it); lia|].
      exists it. auto. }
  split; [|split; [|split]].
  - rewrite maxSeverity_is, H3 by lia. split; [tauto|].
    intros H. split; [exact H|]. intros it _. apply Hr.
  - rewrite maxSeverity_is, H2, (Hle 2) by lia. rewrite <- H3. split.
    + intros [Ha Hb]. split; [exact Ha|]. apply (Hb 3). lia.
    + intros [Ha Hb]. split; [exact Ha|]. intros w Hw.
      replace w with 3 by lia. exact Hb.
  - rewrite maxSeverity_is, H1, (Hle 1) by lia. rewrite <- H2, <- H3. split.
    + intros [Ha Hb]. split; [exact Ha|]. split; [apply (Hb 2)|apply (Hb 3)]; lia.
    + intros (Ha & Hb & Hc). split; [exact Ha|]. intros w Hw.
      assert (C : w = 2 \/ w = 3) by lia. destruct C as [-> | ->]; assumption.
  - rewrite maxSeverity_zero. rewrite <- H1, <- H2, <- H3. split.
    + intros Hz. repeat split; intros (it & Hin & E); rewrite (Hz it Hin) in E;
        discriminate E.
    + intros (Ha & Hb & Hc) it Hin. specialize (Hr it).
      assert (C : severityOf it = 0 \/ severityOf it = 1 \/ severityOf it = 2
                  \/ severityOf it = 3) by lia.
      destruct C as [E|[E|[E|E]]]; [exact E| | |]; exfalso;
        [apply Ha|apply Hb|apply Hc]; exists it; auto.
Qed.

(** X7: the calendar draws the posts that pass the header filters.
    After the button that sets a status on a card, if the post with its
    new status passes them, the chips of the post's day read at least
    that status' severity on every platform the post enables, and after
    "Segna da correggere" they are red.  If the status filter is set on
    another status, the post has left the calendar: the entry of no
    day holds a post with its id. *)
Theorem setStatus_badge zone f posts it status k p :
  In it posts -> hasDayKey zone k it = true -> enabledOn p it = true ->
  let shown := postsByDay zone (calendarItems f (setStatus it status posts)) in
  (calendarKeep f (spread it (statusPatch status)) = true ->
   statusToSeverity status <= cellSeverity (shown !! k) p
   /\ (status = "Da correggere" ->
       cellBadge (shown !! k) p = "bg-red-100 text-red-800 border-red-300"))
  /\ (statusPasses f (spread it (statusPatch status)) = false ->
      forall day b x, shown !! day = Some b -> In x (items b) ->
                      PostItem.id x <> PostItem.id it).
Proof.
  intros Hin Hk Hp shown. subst shown. split.
  - intros Hc.
    assert (Hmem : In (spread it (statusPatch status))
                     (List.filter (enabledOn p)
                        (List.filter (hasDayKey zone k)
                           (calendarItems f (setStatus it status posts))))).
    { apply List.filter_In. split; [|exact Hp].
      apply List.filter_In. split; [|exact Hk].
      apply List.filter_In. split; [|exact Hc].
      unfold setStatus, updateItem. apply in_map_iff. exists it.
      rewrite String.eqb_refl. auto. }
    assert (Hge : statusToSeverity status
                  <= cellSeverity
                       (postsByDay zone (calendarItems f (setStatus it status posts)) !! k) p).
    { rewrite cellSeverity_max. apply (maxSeverity_upper _ _ Hmem). }
    split; [exact Hge|]. intros ->.
    unfold cellBadge. rewrite cellSeverity_max in *.
    pose proof (maxSeverity_range
                  (List.filter (enabledOn p)
                     (List.filter (hasDayKey zone k)
                        (calendarItems f (setStatus it "Da correggere" posts))))) as Hr.
    change (statusToSeverity "Da correggere") with 3 in Hge.
    replace (maxSeverity _) with 3 by lia. reflexivity.
  - intros Hs day b x Hb Hx Hid.
    pose proof (postsByDay_lookup zone (calendarItems f (setStatus it status posts)) day)
      as H.
    unfold bucketFor in H. rewrite Hb in H.
    destruct (List.filter (hasDayKey zone day)
                (calendarItems f (setStatus it status posts))) as [|x0 l] eqn:F;
      [discriminate H|].
    destruct H as (b' & [= <-] & Hi & _). rewrite Hi, <- F in Hx.
    apply List.filter_In in Hx as [Hx _].
    apply List.filter_In in Hx as [Hx Hc].
    unfold setStatus, updateItem in Hx. apply in_map_iff in Hx as (y & Ey & _).
    destruct (String.eqb_spec (PostItem.id y) (PostItem.id it)) as [Eid|Nid].
    + subst x. rewrite calendarKeep_split in Hc.
      assert (Hs' : statusPasses f (spread y (statusPatch status)) = false) by exact Hs.
      rewrite Hs' in Hc. discriminate Hc.
    + subst x. exact (Nid Hid).
Qed.

Lemma setStatus_badge_witness :
  cellBadge (postsByDay cet (calendarItems (searchOnly "")
                               (setStatus postA "Da correggere" [postA; postC]))
               !! "2025-10-29") TikTok
  = "bg-red-100 text-red-800 border-red-300"
  /\ postsByDay cet (calendarItems (statusOnly "Approvato")
                       (setStatus postA "Da correggere" [postA; postC]))
       !! "2025-10-29" = None.
Proof.
  assert (Hin : In postA [postA; postC]) by (left; reflexivity).
  split.
  - exact (proj2 (proj1 (setStatus_badge cet (searchOnly "") [postA; postC] postA
                           "Da correggere" "2025-10-29" TikTok Hin eq_refl eq_refl)
                    eq_refl) eq_refl).
  - reflexivity.
Defined.

(** ** Uploads *)

Section Uploads.

Local Open Scope list_scope.

Lemma freshPlatforms_all p : freshPlatforms p = freshEntry.
Proof. destruct p; reflexivity. Qed.

Lemma newPost_unscheduled u : present (PostItem.scheduledAt (newPost u)) = false.
Proof. reflexivity. Qed.

Lemma foldl_addPost_unscheduled tza m posts :
  Forall (fun it => present (PostItem.scheduledAt it) = false) posts ->
  foldl (addPost tza) m posts = m.
Proof.
  revert m. induction posts as [|it posts IH]; intros m H; [reflexivity|].
  apply Forall_cons in H as [Hi H]. cbn [foldl].
  rewrite addPost_unscheduled by exact Hi. apply IH, H.
Qed.

Lemma filter_none {B} (keep : B -> bool) l :
  Forall (fun b => keep b = false) l -> List.filter keep l = [].
Proof.
  induction l as [|b l IH]; intros H; [reflexivity|].
  apply Forall_cons in H as [Hb H]. cbn [List.filter]. rewrite Hb. apply IH, H.
Qed.

End Uploads.

(** X8: [addFromFiles] puts one new post per file in front of the
    collection and keeps the posts that were there, in order; a new post
    is a draft with the file's name and image, no tags, no schedule and
    every platform enabled with an empty caption.  The uploads change
    nothing in the calendar, and with the scheduled-only switch on
    neither view shows them. *)
Theorem addFromFiles_effect tza rows prev f :
  length (addFromFiles rows prev) = (length rows + length prev)%nat
  /\ drop (length rows) (addFromFiles rows prev) = prev
  /\ (forall i u, rows !! i = Some u ->
        exists it, addFromFiles rows prev !! i = Some it
          /\ PostItem.id it = upId u
          /\ PostItem.createdAt it = upNow u
          /\ PostItem.imageUrl it = Some (upUrl u)
          /\ PostItem.imageName it = Some (upName u)
          /\ PostItem.status it = "Bozza"
          /\ severityOf it = 0
          /\ PostItem.tags it = []
          /\ PostItem.scheduledAt it = None
          /\ forall p, PostItem.platforms it p
                       = {| enabled := true; caption := EmptyString |})
  /\ postsByDay tza (addFromFiles rows prev) = postsByDay tza prev
  /\ (onlyScheduled f = true ->
      filtered tza f (addFromFiles rows prev) = filtered tza f prev
      /\ calendarItems f (addFromFiles rows prev) = calendarItems f prev).
Proof.
  unfold addFromFiles.
  split; [rewrite length_app, length_map; reflexivity|].
  split; [rewrite <- (length_map newPost rows); apply drop_app_length|].
  split.
  { intros i u Hi. exists (newPost u). split.
    - rewrite lookup_app_l by (rewrite length_map; eapply lookup_lt_Some, Hi).
      change (map newPost rows) with (newPost <$> rows).
      rewrite list_lookup_fmap, Hi. reflexivity.
    - cbn. repeat split. apply freshPlatforms_all. }
  split.
  { unfold postsByDay. rewrite foldl_app.
    rewrite (foldl_addPost_unscheduled tza ∅ (map newPost rows)); [reflexivity|].
    apply List.Forall_forall. intros it (u & <- & _)%in_map_iff. reflexivity. }
  intros Hf. unfold filtered, calendarItems. rewrite !List.filter_app.
  rewrite (filter_none (filteredKeep tza f) (map newPost rows)).
  - rewrite (filter_none (calendarKeep f) (map newPost rows)); [split; reflexivity|].
    apply List.Forall_forall. intros it (u & <- & _)%in_map_iff.
    rewrite calendarKeep_split. unfold scheduledPasses. rewrite Hf.
    cbn [negb orb newPost PostItem.scheduledAt present].
    rewrite andb_false_r. reflexivity.
  - apply List.Forall_forall. intros it (u & <- & _)%in_map_iff.
    rewrite filteredKeep_split. unfold scheduledPasses. rewrite Hf.
    cbn [negb orb newPost PostItem.scheduledAt present].
    rewrite !andb_false_r. reflexivity.
Qed.

Lemma addFromFiles_effect_witness :
  filtered cet scheduledOnly
    (addFromFiles [{| upUrl := "data:a"; upName := "a.png"; upId := "n1"; upNow := 7 |}]
                  [postA])
  = [postA].
Proof.
  rewrite (proj1 (proj2 (proj2 (proj2 (proj2
             (addFromFiles_effect cet
                [{| upUrl := "data:a"; upName := "a.png"; upId := "n1"; upNow := 7 |}]
                [postA] scheduledOnly)))) eq_refl)).
  reflexivity.
Defined.

(** ** The select *)

Section SelectItems.

Local Open Scope list_scope.

Context {L : Type}.

Lemma registered_In (v : string) (l : list (string * L)) :
  existsb (hasValue v) l = true <-> In v (map fst l).
Proof.
  rewrite existsb_exists, in_map_iff. unfold hasValue. split.
  - intros (it & Hin & E). apply String.eqb_eq in E. eauto.
  - intros (it & E & Hin). exists it. split; [exact Hin|]. apply String.eqb_eq, E.
Qed.

Lemma find_app_first (v : string) (a b : list (string * L)) :
  List.find (hasValue v) (a ++ b)
  = match List.find (hasValue v) a with
    | Some it => Some it
    | None => List.find (hasValue v) b
    end.
Proof.
  induction a as [|x a IH]; [reflexivity|]. cbn [app List.find].
  destruct (hasValue v x); [reflexivity|exact IH].
Qed.

Lemma find_registered (v : string) (l : list (string * L)) :
  existsb (hasValue v) l = true -> exists it, List.find (hasValue v) l = Some it.
Proof.
  induction l as [|x l IH]; [discriminate|]. cbn [existsb List.find].
  destruct (hasValue v x); [eauto|exact IH].
Qed.

(** What a run of registrations keeps, from any list without repeated
    values. *)
Lemma register_all (options acc items : list (string * L)) :
  List.NoDup (map fst acc) ->
  items = foldl (fun acc o => registerItem (fst o) (snd o) acc) acc options ->
  List.NoDup (map fst items)
  /\ take (length acc) items = acc
  /\ (forall v, In v (map fst items) <-> In v (map fst acc) \/ In v (map fst options))
  /\ (forall v, List.find (hasValue v) items = List.find (hasValue v) (acc ++ options)).
Proof.
  revert acc items. induction options as [|o options IH]; intros acc items Hnd ->;
    cbn [foldl].
  - split; [exact Hnd|]. split; [apply firstn_all|].
    split; [intros v; cbn; tauto|]. intros v. rewrite app_nil_r. reflexivity.
  - unfold registerItem at 2 4 6 8. fold (@hasValue L (fst o)).
    destruct (existsb (hasValue (fst o)) acc) eqn:E.
    + destruct (IH acc _ Hnd eq_refl) as (H1 & H2 & H3 & H4).
      split; [exact H1|]. split; [exact H2|]. split.
      * intros v. rewrite H3. cbn [map In]. apply registered_In in E.
        split; [tauto|]. intros [H|[<-|H]]; tauto.
      * intros v. rewrite H4, !find_app_first. cbn [List.find].
        destruct (List.find (hasValue v) acc) eqn:F; [reflexivity|].
        destruct (hasValue v o) eqn:Ho; [|reflexivity].
        unfold hasValue in Ho. apply String.eqb_eq in Ho. rewrite Ho in E.
        destruct (find_registered v acc E) as (it & Hit). congruence.
    + assert (Hnd' : List.NoDup (map fst (acc ++ [(fst o, snd o)]))).
      { rewrite map_app. apply List.NoDup_app; [exact Hnd|repeat constructor; intros []|].
        intros v Hv [<-|[]]. apply registered_In in Hv. cbn in Hv. congruence. }
      destruct (IH (acc ++ [(fst o, snd o)]) _ Hnd' eq_refl) as (H1 & H2 & H3 & H4).
      split; [exact H1|]. split.
      * match goal with |- take _ ?items = _ =>
          transitivity (take (length acc)
                          (take (length (acc ++ [(fst o, snd o)])) items))
        end.
        -- rewrite take_take, length_app. f_equal. lia.
        -- rewrite H2. apply take_app_length.
      * split.
        -- intros v. rewrite H3, map_app, in_app_iff. cbn. tauto.
        -- intros v. rewrite H4, <- app_assoc. destruct o. reflexivity.
Qed.

End SelectItems.

(** X9: the options of a [Select] never hold a value twice; the
    placeholder with the empty value stays first; the values are the
    empty one and those of the registered items; and for a value
    registered more than once the first label is kept.  Registering an
    item again changes nothing. *)
Theorem selectItems_values {L : Type} (placeholder : L) (options : list (string * L)) :
  List.NoDup (map fst (selectItems placeholder options))
  /\ selectItems placeholder options !! 0%nat = Some (EmptyString, placeholder)
  /\ (forall v, In v (map fst (selectItems placeholder options))
                <-> v = EmptyString \/ In v (map fst options))
  /\ (forall v, List.find (fun it => String.eqb (fst it) v)
                          (selectItems placeholder options)
                = List.find (fun it => String.eqb (fst it) v)
                            ((EmptyString, placeholder) :: options))
  /\ (forall v l prev,
        registerItem v l (registerItem v l prev) = registerItem (L:=L) v l prev).
Proof.
  destruct (register_all options [(EmptyString, placeholder)]
              (selectItems placeholder options)) as (H1 & H2 & H3 & H4).
  { repeat constructor. intros []. }
  { reflexivity. }
  split; [exact H1|]. split.
  { cbn [length] in H2. destruct (selectItems placeholder options) as [|x l];
      [discriminate|]. cbn in H2. injection H2 as ->. reflexivity. }
  split.
  { intros v. rewrite H3. cbn. split; [intros [[<-|[]]|H]; auto|intros [->|H]; auto]. }
  split; [exact H4|].
  intros v l prev. unfold registerItem at 2.
  destruct (existsb (fun it => String.eqb (fst it) v) prev) eqn:E.
  - unfold registerItem. rewrite E. reflexivity.
  - unfold registerItem. rewrite existsb_app, E. cbn [existsb fst].
    rewrite String.eqb_refl. reflexivity.
Qed.

(** X10: the initials of the chips tell the five platforms apart, and
    none has more than two letters. *)
Theorem platformInitial_distinct (p q : Platform) :
  (platformInitial p = platformInitial q <-> p = q)
  /\ (1 <= String.length (platformInitial p) <= 2)%nat.
Proof.
  split; [|destruct p; cbn; lia].
  split; [|intros ->; reflexivity].
  destruct p, q; intros H; (reflexivity || discriminate H).
Qed.

(** ** From a cell to the board *)

Section CellToBoard.

Local Open Scope list_scope.

Variable zone : Zone.

Lemma filter_filter {B} (p q : B -> bool) l :
  List.filter (fun b => p b && q b) l = List.filter q (List.filter p l).
Proof.
  induction l as [|b l IH]; [reflexivity|]. cbn [List.filter].
  destruct (p b); cbn [andb List.filter]; [destruct (q b)|]; rewrite IH; reflexivity.
Qed.

Lemma calendarKeep_trimmed f it :
  trim (query f) = query f ->
  calendarKeep f it = filteredKeep zone (withoutDay f) it.
Proof.
  intros E. rewrite calendarKeep_split, filteredKeep_split.
  rewrite selectedDayPasses_withoutDay, andb_true_r.
  rewrite <- (search_agree_trimmed f it E). reflexivity.
Qed.

Lemma filtered_pickDate f k posts :
  k <> EmptyString ->
  filtered zone (pickDate f k) posts
  = List.filter (hasDayKey zone k) (filtered zone (withoutDay f) posts).
Proof.
  intros Hk. unfold filtered. rewrite <- filter_filter. apply List.filter_ext.
  intros it. rewrite filteredKeep_withoutDay. f_equal.
  unfold selectedDayPasses. cbn [pickDate selectedDate].
  destruct k; [congruence|reflexivity].
Qed.

End CellToBoard.

(** X11: when the query has no white space around it ([query.trim()] is
    the query; the no-break space U+00A0 is white space), clicking the cell
    of a day shows on the board exactly the posts the cell counts, in
    the same order; the counter of the cell is their number, and there
    is none when the board comes up empty. *)
Theorem picked_day_shows_bucket zone f posts k :
  trim (query f) = query f -> k <> EmptyString ->
  let bucket := postsByDay zone (calendarItems f posts) !! k in
  filtered zone (pickDate f k) posts
  = match bucket with Some b => items b | None => [] end
  /\ cellCount bucket
     = match length (filtered zone (pickDate f k) posts) with
       | O => None
       | n => Some n
       end.
Proof.
  intros Hq Hk bucket. subst bucket.
  rewrite (filtered_pickDate zone f k posts Hk).
  assert (E : calendarItems f posts = filtered zone (withoutDay f) posts).
  { unfold calendarItems, filtered. apply List.filter_ext.
    intros it. apply calendarKeep_trimmed, Hq. }
  rewrite <- E.
  pose proof (postsByDay_lookup zone (calendarItems f posts) k) as H.
  unfold bucketFor in H.
  destruct (List.filter (hasDayKey zone k) (calendarItems f posts)) as [|x l] eqn:F.
  - rewrite H. split; reflexivity.
  - destruct H as (b & -> & Hi & _). cbn [cellCount]. rewrite Hi.
    split; reflexivity.
Qed.

Lemma picked_day_shows_bucket_witness :
  filtered cet (pickDate (searchOnly "testo") "2025-10-29") [postA; postC; postB]
  = [postA; postB]
  /\ cellCount (postsByDay cet (calendarItems (searchOnly "testo") [postA; postC; postB])
                  !! "2025-10-29") = Some 2%nat.
Proof.
  assert (Hk : "2025-10-29" <> EmptyString) by discriminate.
  destruct (picked_day_shows_bucket cet (searchOnly "testo") [postA; postC; postB]
              "2025-10-29" eq_refl Hk) as [E C].
  split; [reflexivity|]. rewrite C. reflexivity.
Defined.

(** ** Months in a row *)

Section Navigation.

Local Open Scope Z_scope.

Variable tza : Z.
Hypothesis tza_ok : validOffset tza.

Lemma midnight_fields y m dd :
  0 <= m <= 11 -> 1 <= dd <= DaysInMonth y m ->
  YearFromTime (LocalTime tza (UTC tza (MakeDate (MakeDay y m dd) 0))) = y
  /\ MonthFromTime (LocalTime tza (UTC tza (MakeDate (MakeDay y m dd) 0))) = m
  /\ DateFromTime (LocalTime tza (UTC tza (MakeDate (MakeDay y m dd) 0))) = dd.
Proof.
  intros Hm Hd. rewrite LocalTime_UTC. apply civil_roundtrip; try assumption.
  apply Day_MakeDate. unfold msPerDay. lia.
Qed.

(** [addMonths] from a first of the month. *)
Lemma addMonths_midnight y m delta :
  0 <= m <= 11 -> plainYear y -> plainYear ((12 * y + m + delta) / 12) ->
  addMonths tza (midnight tza (MakeDay y m 1)) delta
  = midnight tza (MakeDay ((12 * y + m + delta) / 12) ((12 * y + m + delta) mod 12) 1).
Proof.
  intros Hm [Hy Hr] [Hy' Hr'].
  pose proof (DaysInMonth_lower y m) as Hl.
  destruct (midnight_fields y m 1 Hm ltac:(lia)) as (Ey & Em & Ed).
  unfold midnight at 1.
  destruct (addMonths_value tza tza_ok (UTC tza (MakeDate (MakeDay y m 1) 0)) delta)
    as (E & _).
  - apply civil_in_range; try assumption; unfold msPerDay; lia.
  - rewrite Ed. cbv zeta.
    pose proof (DaysInMonth_lower
                  ((12 * YearFromTime (LocalTime tza (UTC tza (MakeDate (MakeDay y m 1) 0)))
                    + MonthFromTime (LocalTime tza (UTC tza (MakeDate (MakeDay y m 1) 0)))
                    + delta) / 12)
                  ((12 * YearFromTime (LocalTime tza (UTC tza (MakeDate (MakeDay y m 1) 0)))
                    + MonthFromTime (LocalTime tza (UTC tza (MakeDate (MakeDay y m 1) 0)))
                    + delta) mod 12)).
    lia.
  - rewrite Ey, Em. exact Hy'.
  - rewrite Ey, Em. exact Hr'.
  - rewrite Ey, Em in E. exact E.
Qed.

End Navigation.

(** X12: from a first-of-month cursor, moving by [a] months and then by
    [b] months is moving by [a + b] months, so "Mese succ." followed by
    "Mese prec." shows the month one started from, and moving by no
    month changes nothing (the years met staying clear of 0..99 and
    inside the range of [Date]).  The first cursor, built from one
    reading of the clock, is the first of the month of that reading.
    The button "Oggi" reads the clock twice, for the year and then for
    the month: its cursor is the first of the month of the second
    reading in the year of the first. *)
Theorem addMonths_compose tza y m a b :
  validOffset tza -> 0 <= m <= 11 ->
  plainYear y -> plainYear ((12 * y + m + a) / 12) ->
  plainYear ((12 * y + m + a + b) / 12) ->
  let cursor := midnight tza (MakeDay y m 1) in
  addMonths tza (addMonths tza cursor a) b = addMonths tza cursor (a + b)
  /\ addMonths tza cursor 0 = cursor
  /\ (b = - a -> addMonths tza (addMonths tza cursor a) b = cursor)
  /\ getDate tza (addMonths tza cursor a) = Some 1
  /\ (forall now, getFullYear tza now = Some y -> getMonth tza now = Some m ->
        cursorOf tza now = cursor)
  /\ (forall now1 now2,
        getFullYear tza now1 = Some y -> getMonth tza now2 = Some m ->
        oggi tza now1 now2 = cursor).
Proof.
  intros Hz Hm Hy Ha Hab cursor. subst cursor.
  assert (E0 : addMonths tza (midnight tza (MakeDay y m 1)) 0
               = midnight tza (MakeDay y m 1)).
  { rewrite (addMonths_midnight tza Hz y m 0 Hm Hy).
    - replace ((12 * y + m + 0) / 12) with y by zdiv.
      replace ((12 * y + m + 0) mod 12) with m by zdiv. reflexivity.
    - replace ((12 * y + m + 0) / 12) with y by zdiv. exact Hy. }
  assert (Ec : addMonths tza (addMonths tza (midnight tza (MakeDay y m 1)) a) b
               = addMonths tza (midnight tza (MakeDay y m 1)) (a + b)).
  { rewrite (addMonths_midnight tza Hz y m a Hm Hy Ha).
    assert (Hm' : 0 <= (12 * y + m + a) mod 12 <= 11) by zdiv.
    assert (En : 12 * ((12 * y + m + a) / 12) + (12 * y + m + a) mod 12 + b
                 = 12 * y + m + (a + b)) by zdiv.
    rewrite (addMonths_midnight tza Hz _ _ b Hm' Ha) by (rewrite En, Z.add_assoc; exact Hab).
    rewrite (addMonths_midnight tza Hz y m (a + b) Hm Hy)
      by (rewrite Z.add_assoc; exact Hab).
    rewrite En. reflexivity. }
  assert (Ef : ofYMD tza (Some y) (Some m) (Some 1) = midnight tza (MakeDay y m 1)).
  { destruct Hy as [Hy Hr].
    pose proof (DaysInMonth_lower y m).
    destruct (ofFields_fields tza Hz y m 1 0 0) as (E & _); try lia.
    exact E. }
  split; [exact Ec|]. split; [exact E0|]. split.
  { intros ->. rewrite Ec. replace (a + - a) with 0 by lia. exact E0. }
  split.
  { rewrite (addMonths_midnight tza Hz y m a Hm Hy Ha).
    unfold getDate, localField, midnight.
    assert (Hm' : 0 <= (12 * y + m + a) mod 12 <= 11) by zdiv.
    pose proof (DaysInMonth_lower ((12 * y + m + a) / 12) ((12 * y + m + a) mod 12)).
    destruct (midnight_fields tza ((12 * y + m + a) / 12) ((12 * y + m + a) mod 12) 1
                Hm' ltac:(lia)) as (_ & _ & ->).
    reflexivity. }
  split.
  - intros now Ey Em. unfold cursorOf. rewrite Ey, Em. exact Ef.
  - intros now1 now2 Ey Em. unfold oggi. rewrite Ey, Em. exact Ef.
Qed.

Lemma addMonths_compose_witness :
  addMonths cet (addMonths cet oct2025 1) (-1) = oct2025
  /\ addMonths cet (addMonths cet oct2025 3) 2 = addMonths cet oct2025 5
  /\ dateKeyLocal cet (oggi cet endOf2025 startOf2026) = "2025-01-01".
Proof.
  assert (Hz : validOffset cet) by concrete.
  assert (Hm : 0 <= 9 <= 11) by lia.
  assert (Hy : plainYear 2025) by (unfold plainYear; lia).
  split; [|split].
  - assert (Ha : plainYear ((12 * 2025 + 9 + 1) / 12)) by (unfold plainYear; zdiv).
    assert (Hab : plainYear ((12 * 2025 + 9 + 1 + -1) / 12)) by (unfold plainYear; zdiv).
    exact (proj1 (proj2 (proj2
             (addMonths_compose cet 2025 9 1 (-1) Hz Hm Hy Ha Hab))) eq_refl).
  - assert (Ha : plainYear ((12 * 2025 + 9 + 3) / 12)) by (unfold plainYear; zdiv).
    assert (Hab : plainYear ((12 * 2025 + 9 + 3 + 2) / 12)) by (unfold plainYear; zdiv).
    exact (proj1 (addMonths_compose cet 2025 9 3 2 Hz Hm Hy Ha Hab)).
  - assert (Hm0 : 0 <= 0 <= 11) by lia.
    assert (Ha : plainYear ((12 * 2025 + 0 + 0) / 12)) by (unfold plainYear; zdiv).
    assert (Hab : plainYear ((12 * 2025 + 0 + 0 + 0) / 12)) by (unfold plainYear; zdiv).
    destruct (addMonths_compose cet 2025 0 0 0 Hz Hm0 Hy Ha Hab)
      as (_ & _ & _ & _ & _ & O).
    rewrite (O endOf2025 startOf2026 eq_refl eq_refl). reflexivity.
Defined.

(** ** Schedule texts that are no date *)

Section Unreadable.

Local Open Scope list_scope.

Variable zone : Zone.

Lemma split_head sep c r :
  Ascii.eqb c sep = false ->
  exists h t, split sep (String c r) = String c h :: t.
Proof.
  intros E. cbn [split]. rewrite E.
  destruct (split sep r) as [|h t]; eauto.
Qed.

Lemma parseInt_no_digit c r :
  is_space c = false -> is_digit c = false ->
  c <> "-"%char -> c <> "+"%char ->
  parseInt (String c r) = None.
Proof.
  intros Hs Hd Hm Hp.
  destruct c as [[] [] [] [] [] [] [] []];
    try (exfalso; apply Hm; reflexivity); try (exfalso; apply Hp; reflexivity);
    try (cbv in Hd; discriminate Hd); try (cbv in Hs; discriminate Hs);
    reflexivity.
Qed.

(** The year alone decides: the other fields fall back on a default. *)
Lemma parseLocalDateTime_no_year c r :
  numAt (map parseInt (split "-" (nth 0 (split "T" (String c r)) EmptyString))) 0 = None ->
  parseLocalDateTime zone (String c r) = InvalidDate.
Proof.
  intros E. unfold parseLocalDateTime. cbn [truthy negb]. cbv zeta.
  rewrite E. reflexivity.
Qed.

Lemma parseLocalDateTime_no_digit c r :
  is_space c = false -> is_digit c = false -> c <> "+"%char ->
  parseLocalDateTime zone (String c r) = InvalidDate.
Proof.
  intros Hs Hd Hp. apply parseLocalDateTime_no_year.
  destruct (Ascii.eqb c "T") eqn:ET.
  { apply Ascii.eqb_eq in ET. subst c. reflexivity. }
  destruct (split_head "T" c r ET) as (h & t & ->). cbn [nth].
  destruct (Ascii.eqb c "-") eqn:EM.
  { apply Ascii.eqb_eq in EM. subst c. reflexivity. }
  destruct (split_head "-" c h EM) as (h' & t' & ->).
  cbn [map numAt lookup list_lookup].
  apply parseInt_no_digit; try assumption.
  intros ->. discriminate EM.
Qed.

Lemma digit_char_not_N k : (0 <= k <= 9)%Z -> digit_char k <> "N"%char.
Proof. intros H. digit_split k H; discriminate. Qed.

Lemma digits_of_head fuel : forall n acc,
  (fuel <> O \/ exists c r, acc = String c r /\ c <> "N"%char) ->
  exists c r, digits_of fuel n acc = String c r /\ c <> "N"%char.
Proof.
  induction fuel as [|fuel IH]; intros n acc H.
  - destruct H as [H|H]; [congruence|exact H].
  - cbn [digits_of].
    assert (Hc : digit_char (n mod 10) <> "N"%char).
    { apply digit_char_not_N. pose proof (Z.mod_pos_bound n 10). lia. }
    destruct (n <? 10)%Z; [eauto|]. apply IH. right. eauto.
Qed.

Lemma ofZ_head z : exists c r, ofZ z = String c r /\ c <> "N"%char.
Proof.
  unfold ofZ. destruct (z <? 0)%Z.
  - eexists _, _. split; [reflexivity|discriminate].
  - apply digits_of_head. left. discriminate.
Qed.

(** The key of a valid date starts with a digit or a minus sign. *)
Lemma dateKeyLocal_valid d :
  isValid d = true -> dateKeyLocal zone d <> "NaN-NaN-NaN".
Proof.
  destruct d as [|t]; [discriminate|]. intros _.
  unfold dateKeyLocal, getFullYear, localField. cbn [ofNumber].
  destruct (ofZ_head (YearFromTime (LocalTime zone t))) as (c & r & -> & Hc).
  cbn [append]. intros E. injection E as E _. exact (Hc E).
Qed.

End Unreadable.

(** X13: a schedule text that starts with neither a digit, nor white
    space, nor a plus sign is no date: its day key is [NaN-NaN-NaN].
    A post with such a text that passes the header filters is filed by
    the calendar under that key.  It is the key of no valid date, so
    the entry read for a cell whose date is valid never holds the post;
    it is the key of the invalid date, which the cells past the range
    of [Date] are. *)
Theorem unreadable_schedule_hidden zone f posts it c r :
  is_space c = false -> is_digit c = false -> c <> "+"%char ->
  PostItem.scheduledAt it = Some (String c r) ->
  parseLocalDateTime zone (String c r) = InvalidDate
  /\ dateKeyFromLocalString zone (String c r) = "NaN-NaN-NaN"
  /\ dateKeyLocal zone InvalidDate = "NaN-NaN-NaN"
  /\ (In it posts -> calendarKeep f it = true ->
      exists b, postsByDay zone (calendarItems f posts) !! "NaN-NaN-NaN" = Some b
                /\ In it (items b))
  /\ (forall d b, isValid d = true ->
        postsByDay zone (calendarItems f posts) !! dateKeyLocal zone d = Some b ->
        ~ In it (items b)).
Proof.
  intros Hs Hd Hp Hi.
  pose proof (parseLocalDateTime_no_digit zone c r Hs Hd Hp) as E.
  assert (K : dateKeyFromLocalString zone (String c r) = "NaN-NaN-NaN").
  { unfold dateKeyFromLocalString. rewrite E. reflexivity. }
  assert (Hk : forall k, hasDayKey zone k it = String.eqb "NaN-NaN-NaN" k).
  { intros k. unfold hasDayKey. rewrite Hi. cbn [present truthy orEmpty andb].
    rewrite K. reflexivity. }
  split; [exact E|]. split; [exact K|]. split; [reflexivity|]. split.
  - intros Hin Hc.
    pose proof (postsByDay_lookup zone (calendarItems f posts) "NaN-NaN-NaN") as H.
    assert (F : In it (List.filter (hasDayKey zone "NaN-NaN-NaN") (calendarItems f posts))).
    { apply List.filter_In. split; [|rewrite Hk; reflexivity].
      apply List.filter_In. split; assumption. }
    unfold bucketFor in H.
    destruct (List.filter (hasDayKey zone "NaN-NaN-NaN") (calendarItems f posts))
      as [|x l]; [destruct F|].
    destruct H as (b & Eb & Hb & _). exists b. split; [exact Eb|].
    rewrite Hb. exact F.
  - intros d b Hv Eb Hin.
    pose proof (postsByDay_lookup zone (calendarItems f posts) (dateKeyLocal zone d)) as H.
    unfold bucketFor in H.
    destruct (List.filter (hasDayKey zone (dateKeyLocal zone d)) (calendarItems f posts))
      as [|x l] eqn:F.
    + rewrite H in Eb. discriminate Eb.
    + destruct H as (b' & Eb' & Hb & _). rewrite Eb in Eb'.
      injection Eb' as <-. rewrite Hb, <- F in Hin.
      apply List.filter_In in Hin. destruct Hin as [_ Hin].
      rewrite Hk in Hin. apply String.eqb_eq in Hin.
      symmetry in Hin. exact (dateKeyLocal_valid zone d Hv Hin).
Qed.

Lemma unreadable_schedule_hidden_witness :
  dateKeyFromLocalString cet "domani" = "NaN-NaN-NaN"
  /\ exists b, postsByDay cet (calendarItems (searchOnly "")
                                [postA; scenarioPost "9" "Bozza" (Some "domani")])
                 !! "NaN-NaN-NaN" = Some b
               /\ In (scenarioPost "9" "Bozza" (Some "domani")) (items b).
Proof.
  assert (Hp : "d"%char <> "+"%char) by discriminate.
  destruct (unreadable_schedule_hidden cet (searchOnly "")
              [postA; scenarioPost "9" "Bozza" (Some "domani")]
              (scenarioPost "9" "Bozza" (Some "domani")) "d" "omani"
              eq_refl eq_refl Hp eq_refl) as (_ & K & _ & B & _).
  split; [exact K|]. apply B; [right; left; reflexivity|reflexivity].
Defined.

(** ** The days of the month in the grid *)

Section MonthCells.

Local Open Scope Z_scope.

Lemma MakeDay_date y m d j : MakeDay y m (d + j) = MakeDay y m d + j.
Proof. unfold MakeDay. lia. Qed.

(** Past the last day of a month comes the next month. *)
Lemma MakeDay_next_month y m j :
  0 <= m <= 11 -> MakeDay y m (DaysInMonth y m + j) = MakeDay y (m + 1) j.
Proof.
  intros Hm.
  destruct (Z.eq_dec m 11) as [->|Hn].
  - rewrite MakeDay_in_year by lia. unfold MakeDay.
    change ((11 + 1) / 12) with 1. change ((11 + 1) mod 12) with 0.
    rewrite DayFromYear_succ. unfold DaysInYear, leapZ.
    cbn [monthStart DaysInMonth]. destruct (isLeap y), (isLeap (y + 1)); lia.
  - rewrite !MakeDay_in_year by lia.
    destruct (month_cases m Hm)
      as [->|[->|[->|[->|[->|[->|[->|[->|[->|[->|[->| ->]]]]]]]]]]];
      try lia;
      cbn [monthStart DaysInMonth Z.add Pos.add Pos.succ Pos.add_carry];
      unfold leapZ; destruct (isLeap y);
      match goal with
      | |- context [monthStart ?l ?k] =>
          let v := eval vm_compute in (monthStart l k) in
          change (monthStart l k) with v
      end; lia.
Qed.

(** The month of the days around the first of month [M]: the month
    itself for its own days, a neighbour for the four weeks before and
    after. *)
Lemma month_of_offset Y M j :
  0 <= M <= 11 -> -28 <= j < DaysInMonth Y M + 28 ->
  (MonthFromTime (MakeDate (MakeDay Y M 1 + j) 0) =? M)
  = (0 <=? j) && (j <? DaysInMonth Y M).
Proof.
  intros HM Hj.
  pose proof (DaysInMonth_lower Y M) as Hl.
  assert (Hday : Day (MakeDate (MakeDay Y M 1 + j) 0) = MakeDay Y M (1 + j)).
  { rewrite Day_MakeDate by (unfold msPerDay; lia). rewrite MakeDay_date. reflexivity. }
  destruct (Z.leb_spec 0 j) as [H0|H0]; cbn [andb].
  - destruct (Z.ltb_spec j (DaysInMonth Y M)) as [H1|H1].
    + destruct (civil_roundtrip Y M (1 + j) (MakeDate (MakeDay Y M 1 + j) 0))
        as (_ & -> & _); [lia|lia|exact Hday|]. apply Z.eqb_refl.
    + assert (HM' : 0 <= (M + 1) mod 12 <= 11) by zdiv.
      pose proof (DaysInMonth_lower (Y + (M + 1) / 12) ((M + 1) mod 12)) as Hl'.
      destruct (civil_roundtrip (Y + (M + 1) / 12) ((M + 1) mod 12)
                  (1 + j - DaysInMonth Y M) (MakeDate (MakeDay Y M 1 + j) 0))
        as (_ & -> & _); [exact HM'|lia| |].
      * rewrite Hday, <- MakeDay_normalize, <- MakeDay_next_month by exact HM.
        f_equal. lia.
      * apply Z.eqb_neq. zdiv.
  - set (Yp := Y + (M - 1) / 12). set (Mp := (M - 1) mod 12).
    assert (HMp : 0 <= Mp <= 11) by (subst Mp; zdiv).
    pose proof (DaysInMonth_lower Yp Mp) as Hl'.
    destruct (civil_roundtrip Yp Mp (DaysInMonth Yp Mp + (1 + j))
                (MakeDate (MakeDay Y M 1 + j) 0))
      as (_ & -> & _); [exact HMp|lia| |].
    + rewrite Hday, (MakeDay_next_month Yp Mp (1 + j) HMp).
      rewrite (MakeDay_normalize Yp (Mp + 1)).
      replace (Yp + (Mp + 1) / 12) with Y by (subst Yp Mp; zdiv).
      replace ((Mp + 1) mod 12) with M by (subst Mp; zdiv). reflexivity.
    + apply Z.eqb_neq. subst Mp. zdiv.
Qed.

Lemma filter_seqZ_interval (p : Z -> bool) a b n :
  0 <= a -> 0 <= b -> a + b <= n ->
  (forall i, 0 <= i < n -> p i = (a <=? i) && (i <? a + b)) ->
  List.filter p (seqZ 0 n) = seqZ a b.
Proof.
  intros Ha Hb Hn Hp.
  replace n with (a + (b + (n - a - b))) by lia.
  rewrite (seqZ_app 0 a) by lia. rewrite (seqZ_app (0 + a) b) by lia.
  rewrite !List.filter_app.
  rewrite (filter_none p (seqZ 0 a)), (filter_none p (seqZ (0 + a + b) (n - a - b))).
  - rewrite app_nil_r. cbn [app]. rewrite Z.add_0_l. apply filter_all.
    intros i Hi. apply list_elem_of_In, elem_of_seqZ in Hi. rewrite Hp by lia.
    apply andb_true_iff. split; [apply Z.leb_le|apply Z.ltb_lt]; lia.
  - apply Forall_seqZ. intros i Hi. rewrite Hp by lia.
    apply andb_false_iff. right. apply Z.ltb_ge. lia.
  - apply Forall_seqZ. intros i Hi. rewrite Hp by lia.
    apply andb_false_iff. left. apply Z.leb_gt. lia.
Qed.

Lemma filter_map_swap {A B} (p : B -> bool) (f : A -> B) l :
  List.filter p (map f l) = map f (List.filter (fun a => p (f a)) l).
Proof.
  induction l as [|a l IH]; [reflexivity|]. cbn [map List.filter].
  destruct (p (f a)); cbn [map]; rewrite IH; reflexivity.
Qed.

End MonthCells.

(** X14: of the 42 cells of the grid, those the view draws at full
    strength (the month of the cell is the cursor's) are exactly the
    days of the cursor's month, each once and in order: their day
    numbers read 1, 2, ... up to the length of the month.  Cell [i]
    falls on weekday [(i + 1) mod 7], so the seven columns are Monday
    to Sunday, as the header row says. *)
Theorem weeks_month_cells tza cursor t :
  validOffset tza -> cursor = TimeValue t -> farFromLimits t ->
  ~ (0 <= YearFromTime (LocalTime tza t) <= 99) ->
  let Y := YearFromTime (LocalTime tza t) in
  let M := MonthFromTime (LocalTime tza t) in
  let cells := concat (weeks tza cursor) in
  List.filter (inMonth tza cursor) cells
  = map (fun dd => midnight tza (MakeDay Y M dd)) (seqZ 1 (DaysInMonth Y M))
  /\ map (getDate tza) (List.filter (inMonth tza cursor) cells)
     = map Some (seqZ 1 (DaysInMonth Y M))
  /\ (forall i d, cells !! i = Some d ->
        getDay tza d = Some ((Z.of_nat i + 1) mod 7)).
Proof.
  intros Hz -> Hr Hy Y M cells.
  set (first := MakeDay Y M 1).
  set (back := ((first + 4) mod 7 + 6) mod 7).
  assert (HM : 0 <= M <= 11) by apply MonthFromTime_range.
  pose proof (DaysInMonth_lower Y M) as Hl.
  pose proof (DaysInMonth_bound Y M) as Hu.
  assert (Hb : 0 <= back <= 6) by (subst back; zdiv).
  assert (Hcells : cells = map (fun i => midnight tza (first - back + i)) (seqZ 0 42)).
  { subst cells. rewrite (weeks_value tza Hz t Hr Hy). fold Y M first back.
    rewrite chunk_map. reflexivity. }
  assert (Hin : List.filter (inMonth tza (TimeValue t)) cells
                = map (fun dd => midnight tza (MakeDay Y M dd)) (seqZ 1 (DaysInMonth Y M))).
  { rewrite Hcells, filter_map_swap.
    rewrite (filter_seqZ_interval _ back (DaysInMonth Y M) 42); try lia.
    - replace back with ((back - 1) + 1) at 1 by lia.
      rewrite <- fmap_add_seqZ.
      change (Z.add (back - 1) <$> seqZ 1 (DaysInMonth Y M))
        with (map (Z.add (back - 1)) (seqZ 1 (DaysInMonth Y M))).
      rewrite map_map. apply map_ext. intros dd. f_equal.
      replace dd with (1 + (dd - 1)) at 2 by lia. rewrite MakeDay_date.
      fold first. lia.
    - intros i Hi. unfold inMonth, getMonth, localField, midnight.
      rewrite LocalTime_UTC. fold M.
      replace (first - back + i) with (MakeDay Y M 1 + (i - back)) by (fold first; lia).
      rewrite month_of_offset by lia. f_equal.
      + destruct (Z.leb_spec 0 (i - back)), (Z.leb_spec back i); lia || reflexivity.
      + destruct (Z.ltb_spec (i - back) (DaysInMonth Y M)),
          (Z.ltb_spec i (back + DaysInMonth Y M)); lia || reflexivity. }
  split; [exact Hin|]. split.
  - rewrite Hin, map_map.
    change (map (fun x => getDate tza (midnight tza (MakeDay Y M x)))
                (seqZ 1 (DaysInMonth Y M)))
      with ((fun x => getDate tza (midnight tza (MakeDay Y M x)))
              <$> seqZ 1 (DaysInMonth Y M)).
    change (map Some (seqZ 1 (DaysInMonth Y M))) with (Some <$> seqZ 1 (DaysInMonth Y M)).
    apply list_fmap_ext. intros i dd Hdd. apply lookup_seqZ in Hdd.
    unfold getDate, localField, midnight.
    destruct (midnight_fields tza Y M dd HM ltac:(lia)) as (_ & _ & ->). reflexivity.
  - intros i d Hd. rewrite Hcells in Hd.
    change (map (fun i => midnight tza (first - back + i)) (seqZ 0 42))
      with ((fun i => midnight tza (first - back + i)) <$> seqZ 0 42) in Hd.
    apply list_lookup_fmap_Some in Hd as (x & -> & Hx).
    apply lookup_seqZ in Hx as [-> Hx].
    unfold getDay, localField, midnight. rewrite LocalTime_UTC, WeekDay_midnight.
    f_equal. subst back. zdiv.
Qed.

Lemma weeks_month_cells_witness :
  map (getDate cet) (List.filter (inMonth cet oct2025) (concat (weeks cet oct2025)))
  = map Some (seqZ 1 31)
  /\ getDay cet <$> concat (weeks cet oct2025) !! 6%nat = Some (Some 0).
Proof.
  assert (Hz : validOffset cet) by concrete.
  assert (Hc : oct2025 = TimeValue 1759273200000) by reflexivity.
  assert (Hr : farFromLimits 1759273200000) by concrete.
  assert (Hy : ~ (0 <= YearFromTime (LocalTime cet 1759273200000) <= 99)%Z) by concrete.
  destruct (weeks_month_cells cet oct2025 1759273200000 Hz Hc Hr Hy) as (_ & D & W).
  split; [exact D|].
  destruct (concat (weeks cet oct2025) !! 6%nat) as [d|] eqn:E; [|discriminate E].
  cbn [fmap option_fmap option_map]. rewrite (W 6%nat d E). reflexivity.
Defined.

(** ** The cell of a scheduled post *)

Section CellOfPost.

Local Open Scope Z_scope.

Variable tza : Z.

Lemma append_inj_length (a a' b b' : string) :
  String.length a = String.length a' -> (a ++ b = a' ++ b')%string ->
  a = a' /\ b = b'.
Proof.
  revert a'. induction a as [|c a IH]; intros [|c' a'] Hl E;
    try discriminate Hl.
  - split; [reflexivity|exact E].
  - cbn [append] in E. injection E as -> E. injection Hl as Hl.
    destruct (IH a' Hl E) as [-> ->]. split; reflexivity.
Qed.

Lemma dateText_inj y m d y' m' d' :
  0 <= y <= 9999 -> 0 <= m <= 99 -> 0 <= d <= 99 ->
  0 <= y' <= 9999 -> 0 <= m' <= 99 -> 0 <= d' <= 99 ->
  dateText y m d = dateText y' m' d' -> y = y' /\ m = m' /\ d = d'.
Proof.
  intros Hy Hm Hd Hy' Hm' Hd' E. unfold dateText in E.
  destruct (fourDigits_spec y Hy) as (_ & Py & Ly).
  destruct (fourDigits_spec y' Hy') as (_ & Py' & Ly').
  destruct (twoDigits_spec m Hm) as (_ & Pm & Lm).
  destruct (twoDigits_spec m' Hm') as (_ & Pm' & Lm').
  destruct (twoDigits_spec d Hd) as (_ & Pd & _).
  destruct (twoDigits_spec d' Hd') as (_ & Pd' & _).
  apply (append_inj_length (fourDigits y) (fourDigits y')) in E as [Ey E];
    [|congruence].
  cbn [append] in E. injection E as E.
  apply (append_inj_length (twoDigits m) (twoDigits m')) in E as [Em E];
    [|congruence].
  cbn [append] in E. injection E as Ed.
  change (twoDigits d = twoDigits d') in Ed.
  rewrite Ey in Py. rewrite Em in Pm. rewrite Ed in Pd.
  repeat split; congruence.
Qed.

(** The key of the cell of a day is the text of the day. *)
Lemma dateKeyLocal_midnight y m d :
  1000 <= y <= 9999 -> 1 <= m <= 12 -> 1 <= d <= DaysInMonth y (m - 1) ->
  dateKeyLocal tza (midnight tza (MakeDay y (m - 1) d)) = dateText y m d.
Proof.
  intros Hy Hm Hd.
  destruct (midnight_fields tza y (m - 1) d ltac:(lia) Hd) as (Ey & Em & Ed).
  unfold dateKeyLocal, getFullYear, getMonth, getDate, localField, midnight.
  rewrite Ey, Em, Ed. cbn [mbind option_bind ofNumber].
  replace (m - 1 + 1) with m by lia.
  rewrite (fourDigits_plain y Hy). reflexivity.
Qed.

Lemma localText_truthy y m d hh mi :
  0 <= y <= 9999 -> truthy (localText y m d hh mi) = true.
Proof.
  intros Hy. destruct (fourDigits_spec y Hy) as (_ & _ & L).
  unfold localText, dateText. destruct (fourDigits y); [discriminate L|reflexivity].
Qed.

End CellOfPost.

(** X15: a post of the collection scheduled at [YYYY-MM-DDThh:mm] (a
    real date and time, the year of four digits) is counted in the cell
    of that day, if it passes the header filters, and in the cell of no
    other day: the key of the cell of a day is the text [YYYY-MM-DD] of
    the day, and the entry the calendar reads under it holds the post
    exactly when the post passes the filters and the cell is the day of
    the post. *)
Theorem scheduled_post_cell tza f posts it y m d hh mi y' m' d' :
  validOffset tza ->
  1000 <= y <= 9999 -> 1 <= m <= 12 -> 1 <= d <= DaysInMonth y (m - 1) ->
  0 <= hh <= 23 -> 0 <= mi <= 59 ->
  1000 <= y' <= 9999 -> 1 <= m' <= 12 -> 1 <= d' <= DaysInMonth y' (m' - 1) ->
  PostItem.scheduledAt it = Some (localText y m d hh mi) -> In it posts ->
  let cell := midnight tza (MakeDay y' (m' - 1) d') in
  dateKeyLocal tza cell = dateText y' m' d'
  /\ ((exists b, postsByDay tza (calendarItems f posts) !! dateKeyLocal tza cell = Some b
                 /\ In it (items b))
      <-> calendarKeep f it = true /\ y' = y /\ m' = m /\ d' = d).
Proof.
  intros Hz Hy Hm Hd Hh Hi Hy' Hm' Hd' Hs Hin cell. subst cell.
  pose proof (DaysInMonth_bound y (m - 1)) as Hb.
  pose proof (DaysInMonth_bound y' (m' - 1)) as Hb'.
  rewrite (dateKeyLocal_midnight tza y' m' d' Hy' Hm' Hd').
  split; [reflexivity|].
  assert (Hk : forall k, hasDayKey tza k it = String.eqb (dateText y m d) k).
  { intros k. unfold hasDayKey. rewrite Hs. cbn [present orEmpty].
    rewrite localText_truthy by lia.
    rewrite (dateKeyFromLocalString_localText tza Hz y m d hh mi) by assumption.
    reflexivity. }
  pose proof (postsByDay_lookup tza (calendarItems f posts) (dateText y' m' d')) as H.
  unfold bucketFor in H. split.
  - intros (b & Eb & Hb0).
    destruct (List.filter (hasDayKey tza (dateText y' m' d')) (calendarItems f posts))
      as [|x l] eqn:F.
    + rewrite H in Eb. discriminate Eb.
    + destruct H as (b' & Eb' & Hi' & _). rewrite Eb in Eb'. injection Eb' as <-.
      rewrite Hi', <- F in Hb0. apply List.filter_In in Hb0 as [Hc Hb0].
      apply List.filter_In in Hc as [_ Hc].
      rewrite Hk in Hb0. apply String.eqb_eq in Hb0.
      apply dateText_inj in Hb0; [|lia..].
      split; [exact Hc|lia].
  - intros (Hc & -> & -> & ->).
    assert (F : In it (List.filter (hasDayKey tza (dateText y m d))
                         (calendarItems f posts))).
    { apply List.filter_In. split; [|rewrite Hk; apply String.eqb_refl].
      apply List.filter_In. split; assumption. }
    destruct (List.filter (hasDayKey tza (dateText y m d)) (calendarItems f posts))
      as [|x l]; [destruct F|].
    destruct H as (b & Eb & Hi' & _). exists b. split; [exact Eb|].
    rewrite Hi'. exact F.
Qed.

Lemma scheduled_post_cell_witness :
  dateKeyLocal cet (midnight cet (MakeDay 2025 9 29)) = "2025-10-29"
  /\ exists b, postsByDay cet (calendarItems (searchOnly "") [postC; postA])
                 !! dateKeyLocal cet (midnight cet (MakeDay 2025 9 29)) = Some b
               /\ In postA (items b).
Proof.
  assert (Hz : validOffset cet) by concrete.
  assert (Hy : 1000 <= 2025 <= 9999) by lia.
  assert (Hm : 1 <= 10 <= 12) by lia.
  assert (Hd : 1 <= 29 <= DaysInMonth 2025 (10 - 1)) by (vm_compute; split; discriminate).
  assert (Hh : 0 <= 9 <= 23) by lia.
  assert (Hi : 0 <= 0 <= 59) by lia.
  assert (Hin : In postA [postC; postA]) by (right; left; reflexivity).
  destruct (scheduled_post_cell cet (searchOnly "") [postC; postA] postA
              2025 10 29 9 0 2025 10 29
              Hz Hy Hm Hd Hh Hi Hy Hm Hd eq_refl Hin) as [K B].
  split; [exact K|]. apply B. repeat split.
Defined.

(** ** The empty option of the platform select *)

Section EmptyOption.

Local Open Scope list_scope.

Lemma filterThrowing_total {A} (keep : A -> option bool) (k : A -> bool) l :
  (forall a, keep a = Some (k a)) -> filterThrowing keep l = Some (List.filter k l).
Proof.
  intros H. induction l as [|a l IH]; [reflexivity|].
  cbn [filterThrowing List.filter]. rewrite H, IH.
  destruct (k a); reflexivity.
Qed.

Lemma filterThrowing_None {A} (keep : A -> option bool) l :
  filterThrowing keep l = None <-> exists a, In a l /\ keep a = None.
Proof.
  induction l as [|a l IH]; cbn [filterThrowing In].
  - split; [discriminate|intros (a & [] & _)].
  - destruct (keep a) as [k|] eqn:E.
    + destruct (filterThrowing keep l) as [kept|].
      * split; [discriminate|]. intros (a' & [<-|Hin] & Ha); [congruence|].
        destruct IH as [_ IH]. discriminate IH. eauto.
      * split; [|reflexivity]. intros _.
        destruct IH as [IH _]. destruct (IH eq_refl) as (a' & Hin & Ha). eauto.
    + split; [|reflexivity]. intros _. eauto.
Qed.

Lemma platformName_not_Tutte p : String.eqb (platformName p) "Tutte" = false.
Proof. destruct p; reflexivity. Qed.

Lemma filteredKeepOf_typed tza c pf f it :
  typedChoice c = Some pf ->
  filteredKeepOf tza c f it = Some (filteredKeep tza (withPlatform f pf) it).
Proof.
  intros E. unfold filteredKeepOf, filteredKeep.
  cbn [withPlatform statusFilter platformFilter onlyScheduled selectedDate query].
  destruct c as [| |p]; [discriminate E| |]; injection E as <-;
    cbn [choiceValue platformsAt]; rewrite ?platformName_not_Tutte;
    cbn [String.eqb Ascii.eqb Bool.eqb negb mbind option_bind];
    repeat match goal with
           | |- context [if ?b then _ else _] => destruct b eqn:?; try reflexivity
           end.
Qed.

Lemma calendarKeepOf_typed c pf f it :
  typedChoice c = Some pf ->
  calendarKeepOf c f it = Some (calendarKeep (withPlatform f pf) it).
Proof.
  intros E. unfold calendarKeepOf, calendarKeep.
  cbn [withPlatform statusFilter platformFilter onlyScheduled selectedDate query].
  destruct c as [| |p]; [discriminate E| |]; injection E as <-;
    cbn [choiceValue platformsAt]; rewrite ?platformName_not_Tutte;
    cbn [String.eqb Ascii.eqb Bool.eqb negb mbind option_bind];
    destruct (String.eqb (statusFilter f) "Tutti"
              || String.eqb (PostItem.status it) (statusFilter f)); reflexivity.
Qed.

Lemma filteredKeepOf_empty tza f it :
  filteredKeepOf tza Seleziona f it = None <-> statusPasses f it = true.
Proof.
  unfold filteredKeepOf, statusPasses. cbn [choiceValue platformsAt].
  destruct (String.eqb (statusFilter f) "Tutti"),
    (String.eqb (PostItem.status it) (statusFilter f)); cbn; split; congruence.
Qed.

Lemma calendarKeepOf_empty f it :
  calendarKeepOf Seleziona f it = None <-> statusPasses f it = true.
Proof.
  unfold calendarKeepOf, statusPasses. cbn [choiceValue platformsAt].
  destruct (String.eqb (statusFilter f) "Tutti"),
    (String.eqb (PostItem.status it) (statusFilter f)); cbn; split; congruence.
Qed.

End EmptyOption.

(** X16: the platform select offers, before "Tutte" and the five
    platforms, the option of the empty value.  With "Tutte" or a
    platform chosen the two filters return their lists; with the empty
    option chosen each of them throws, reading [enabled] of a platform
    entry that does not exist, as soon as one post passes the status
    filter. *)
Theorem empty_platform_option_throws {L} tza f posts (lbl tutte : L) (name : Platform -> L) :
  map fst (selectItems lbl (("Tutte", tutte)
                              :: map (fun p => (platformName p, name p)) PLATFORMS))
  = map choiceValue (Seleziona :: TutteLe :: map Una PLATFORMS)
  /\ (forall c pf, typedChoice c = Some pf ->
        filteredOf tza c f posts = Some (filtered tza (withPlatform f pf) posts)
        /\ calendarItemsOf c f posts = Some (calendarItems (withPlatform f pf) posts))
  /\ (filteredOf tza Seleziona f posts = None
      <-> exists it, In it posts /\ statusPasses f it = true)
  /\ (calendarItemsOf Seleziona f posts = None
      <-> exists it, In it posts /\ statusPasses f it = true).
Proof.
  split; [reflexivity|]. split; [|split].
  - intros c pf E. split.
    + apply filterThrowing_total. intros it. apply filteredKeepOf_typed, E.
    + apply filterThrowing_total. intros it. apply calendarKeepOf_typed, E.
  - unfold filteredOf. rewrite filterThrowing_None.
    split; intros (it & Hin & H); exists it; (split; [exact Hin|]);
      apply (filteredKeepOf_empty tza f it); exact H.
  - unfold calendarItemsOf. rewrite filterThrowing_None.
    split; intros (it & Hin & H); exists it; (split; [exact Hin|]);
      apply (calendarKeepOf_empty f it); exact H.
Qed.
